(** * Reminder scheduling and delivery engine of the task manager

    A shallow embedding of the reminder engine of [main.py]
    ([check_reminders], [update_recurring_reminder],
    [process_reminder_queue], [load_reminders]) together with the part of
    Python's [datetime] module those functions call, and the properties of
    the engine that the specification states. *)

From Stdlib Require Import ZArith List Bool Lia String Ascii.
From Stdlib Require DecimalString.
Import ListNotations.
Open Scope Z_scope.

(** ** Exceptions

    The exception classes that the modelled code can raise.  All of them
    derive from [Exception], which is what the handler of [check_reminders]
    catches. *)

Inductive exn : Type :=
| ValueError
| OverflowError
| TypeError
| OperationalError.

Inductive result (A : Type) : Type :=
| Ok (a : A)
| Raise (e : exn).
Arguments Ok {A} a.
Arguments Raise {A} e.

(** ** Python's datetime arithmetic

    [datetime.strptime] with the format of the application never sets
    microseconds or a time zone, so a datetime is its six integer fields. *)

Module PyDatetime.

Record datetime : Type := mkdt {
  year : Z; month : Z; day : Z;
  hour : Z; minute : Z; second : Z
}.

Definition MINYEAR : Z := 1.
Definition MAXYEAR : Z := 9999.
Definition MAXORDINAL : Z := 3652059.

Definition DAYS_IN_MONTH : list Z :=
  [-1; 31; 28; 31; 30; 31; 30; 31; 31; 30; 31; 30; 31].
Definition DAYS_BEFORE_MONTH : list Z :=
  [-1; 0; 31; 59; 90; 120; 151; 181; 212; 243; 273; 304; 334].

Definition tbl (t : list Z) (i : Z) : Z := nth (Z.to_nat i) t (-1).

Definition is_leap (y : Z) : bool :=
  (y mod 4 =? 0) && (negb (y mod 100 =? 0) || (y mod 400 =? 0)).

Definition b2z (b : bool) : Z := if b then 1 else 0.

Definition days_before_year (y : Z) : Z :=
  let y' := y - 1 in y' * 365 + y' / 4 - y' / 100 + y' / 400.

Definition days_in_month (y m : Z) : Z :=
  if (m =? 2) && is_leap y then 29 else tbl DAYS_IN_MONTH m.

Definition days_before_month (y m : Z) : Z :=
  tbl DAYS_BEFORE_MONTH m + b2z ((2 <? m) && is_leap y).

Definition ymd2ord (y m d : Z) : Z :=
  days_before_year y + days_before_month y m + d.

Definition DI400Y : Z := 146097.
Definition DI100Y : Z := 36524.
Definition DI4Y : Z := 1461.

Definition ord2ymd (n : Z) : Z * Z * Z :=
  let n := n - 1 in
  let n400 := n / DI400Y in let n := n mod DI400Y in
  let y := n400 * 400 + 1 in
  let n100 := n / DI100Y in let n := n mod DI100Y in
  let n4 := n / DI4Y in let n := n mod DI4Y in
  let n1 := n / 365 in let n := n mod 365 in
  let y := y + (n100 * 100 + n4 * 4 + n1) in
  if (n1 =? 4) || (n100 =? 4) then (y - 1, 12, 31)
  else
    let leapyear := (n1 =? 3) && (negb (n4 =? 24) || (n100 =? 3)) in
    let m := Z.shiftr (n + 50) 5 in
    let preceding := tbl DAYS_BEFORE_MONTH m + b2z ((2 <? m) && leapyear) in
    if n <? preceding
    then
      let m := m - 1 in
      let preceding :=
        preceding - (tbl DAYS_IN_MONTH m + b2z ((m =? 2) && leapyear)) in
      (y, m, n - preceding + 1)
    else (y, m, n - preceding + 1).

(** [_check_date_fields] and [_check_time_fields]: the constructor's range
    checks, each failing with [ValueError]. *)

Definition date_ok (y m d : Z) : bool :=
  (MINYEAR <=? y) && (y <=? MAXYEAR) &&
  (1 <=? m) && (m <=? 12) &&
  (1 <=? d) && (d <=? days_in_month y m).

Definition time_ok (h mi s : Z) : bool :=
  (0 <=? h) && (h <=? 23) && (0 <=? mi) && (mi <=? 59) &&
  (0 <=? s) && (s <=? 59).

Definition new_datetime (y m d h mi s : Z) : result datetime :=
  if date_ok y m d then
    if time_ok h mi s then Ok (mkdt y m d h mi s) else Raise ValueError
  else Raise ValueError.

Definition valid (t : datetime) : Prop :=
  date_ok (year t) (month t) (day t) = true /\
  time_ok (hour t) (minute t) (second t) = true.

(** [datetime.replace(year=..., month=...)]: rebuilds the value through the
    constructor, so the new date is checked.  An argument that does not fit
    a C [int] is an [OverflowError] before any range check. *)

Definition fits_c_int (z : Z) : bool :=
  (-2147483648 <=? z) && (z <=? 2147483647).

Definition replace_ym (t : datetime) (y m : Z) : result datetime :=
  if fits_c_int y && fits_c_int m
  then new_datetime y m (day t) (hour t) (minute t) (second t)
  else Raise OverflowError.

(** [timedelta]: days and seconds, normalised so that
    [0 <= td_seconds < 86400]; a magnitude above 999999999 days is an
    [OverflowError]. *)

Record timedelta : Type := mktd { td_days : Z; td_seconds : Z }.

Definition new_timedelta (days secs : Z) : result timedelta :=
  let d := days + secs / 86400 in
  let s := secs mod 86400 in
  if Z.abs d <=? 999999999 then Ok (mktd d s) else Raise OverflowError.

Definition timedelta_minutes (n : Z) : result timedelta := new_timedelta 0 (n * 60).
Definition timedelta_hours (n : Z) : result timedelta := new_timedelta 0 (n * 3600).
Definition timedelta_days (n : Z) : result timedelta := new_timedelta n 0.
Definition timedelta_weeks (n : Z) : result timedelta := new_timedelta (n * 7) 0.

Definition toordinal (t : datetime) : Z := ymd2ord (year t) (month t) (day t).

(** [datetime.__add__]: the sum is formed as a timedelta counted from
    ordinal 0 and converted back; a day count outside [1 .. MAXORDINAL] is
    an [OverflowError]. *)

Definition add (t : datetime) (d : timedelta) : result datetime :=
  match new_timedelta (toordinal t)
          (hour t * 3600 + minute t * 60 + second t) with
  | Raise e => Raise e
  | Ok self =>
    match new_timedelta (td_days self + td_days d)
            (td_seconds self + td_seconds d) with
    | Raise e => Raise e
    | Ok delta =>
      let h := td_seconds delta / 3600 in
      let rem := td_seconds delta mod 3600 in
      let mi := rem / 60 in
      let s := rem mod 60 in
      if (0 <? td_days delta) && (td_days delta <=? MAXORDINAL) then
        let '(y, m, dd) := ord2ymd (td_days delta) in
        Ok (mkdt y m dd h mi s)
      else Raise OverflowError
    end
  end.

(** Comparison of two datetimes is the comparison of their field tuples. *)

Fixpoint lex_ltb (a b : list Z) : bool :=
  match a, b with
  | x :: a', y :: b' => (x <? y) || ((x =? y) && lex_ltb a' b')
  | [], _ :: _ => true
  | _, _ => false
  end.

Definition fields (t : datetime) : list Z :=
  [year t; month t; day t; hour t; minute t; second t].

Definition ltb (a b : datetime) : bool := lex_ltb (fields a) (fields b).

(** Seconds elapsed since the start of ordinal day 0: the measure in which
    "t plus n units" is stated. *)

Definition to_seconds (t : datetime) : Z :=
  toordinal t * 86400 + hour t * 3600 + minute t * 60 + second t.

Definition MAX_SECONDS : Z := MAXORDINAL * 86400 + 86399.

(** The month-and-day step of [ord2ymd] on its own, and the two month
    tables as functions of the leap flag: the finite facts about them are
    checked by enumeration. *)

Definition yday_split (leapyear : bool) (n : Z) : Z * Z :=
  let m := Z.shiftr (n + 50) 5 in
  let preceding := tbl DAYS_BEFORE_MONTH m + b2z ((2 <? m) && leapyear) in
  if n <? preceding
  then
    let m := m - 1 in
    let preceding :=
      preceding - (tbl DAYS_IN_MONTH m + b2z ((m =? 2) && leapyear)) in
    (m, n - preceding + 1)
  else (m, n - preceding + 1).

Definition dim_l (l : bool) (m : Z) : Z :=
  if (m =? 2) && l then 29 else tbl DAYS_IN_MONTH m.

Definition dbm_l (l : bool) (m : Z) : Z :=
  tbl DAYS_BEFORE_MONTH m + b2z ((2 <? m) && l).

Definition yday_split_ok (leapyear : bool) (n : Z) : bool :=
  let '(m, d) := yday_split leapyear n in
  (1 <=? m) && (m <=? 12) && (1 <=? d) && (d <=? dim_l leapyear m) &&
  (dbm_l leapyear m + d =? n + 1).

Definition month_tables_ok (l : bool) (m1 m2 : Z) : bool :=
  (0 <=? dbm_l l (m1 + 1)) && (28 <=? dim_l l (m1 + 1)) &&
  (dbm_l l (m1 + 1) + dim_l l (m1 + 1) <=? 365 + b2z l) &&
  (negb (m1 <? m2) || (dbm_l l (m1 + 1) + dim_l l (m1 + 1) <=? dbm_l l (m2 + 1))).

Definition zrange (n : nat) : list Z := map Z.of_nat (seq 0 n).

End PyDatetime.

(** ** Text form of a timestamp: the format "%Y-%m-%d %H:%M:%S"

    The [reminders] table keeps [remind_time] as text.  The model covers
    ASCII text; the year is written with four digits. *)

Module TimeFormat.
Import PyDatetime.

Definition digit (n : Z) : ascii := ascii_of_nat (48 + Z.to_nat n).

Definition pad2 (n : Z) (k : string) : string :=
  String (digit (n / 10)) (String (digit (n mod 10)) k).

Definition pad4 (n : Z) (k : string) : string :=
  String (digit (n / 1000)) (String (digit (n / 100 mod 10))
    (String (digit (n / 10 mod 10)) (String (digit (n mod 10)) k))).

Definition strftime (t : datetime) : string :=
  pad4 (year t) (String "-" (pad2 (month t) (String "-" (pad2 (day t)
    (String " " (pad2 (hour t) (String ":" (pad2 (minute t)
      (String ":" (pad2 (second t) EmptyString)))))))))).

Definition digit_val (c : ascii) : option Z :=
  let n := Z.of_nat (nat_of_ascii c) in
  if (48 <=? n) && (n <=? 57) then Some (n - 48) else None.

Definition in_range (lo hi : Z) (c : ascii) : option Z :=
  match digit_val c with
  | Some v => if (lo <=? v) && (v <=? hi) then Some v else None
  | None => None
  end.

Definition is_space (c : ascii) : bool :=
  let n := Z.of_nat (nat_of_ascii c) in
  (n =? 32) || ((9 <=? n) && (n <=? 13)) || ((28 <=? n) && (n <=? 31)).

(** One alternative of a directive's regular expression: two digits drawn
    from two ranges, one digit, or a space followed by a digit. *)

Inductive alt : Type :=
| Two (lo1 hi1 lo2 hi2 : Z)
| One (lo hi : Z)
| SpaceOne (lo hi : Z).

Definition match_alt (a : alt) (s : string) : option (Z * string) :=
  match a, s with
  | Two lo1 hi1 lo2 hi2, String c1 (String c2 rest) =>
    match in_range lo1 hi1 c1, in_range lo2 hi2 c2 with
    | Some v1, Some v2 => Some (v1 * 10 + v2, rest)
    | _, _ => None
    end
  | One lo hi, String c rest =>
    match in_range lo hi c with
    | Some v => Some (v, rest)
    | None => None
    end
  | SpaceOne lo hi, String c1 (String c2 rest) =>
    if Ascii.eqb c1 " " then
      match in_range lo hi c2 with
      | Some v => Some (v, rest)
      | None => None
      end
    else None
  | _, _ => None
  end.

Fixpoint first_alt (alts : list alt) (s : string) : option (Z * string) :=
  match alts with
  | [] => None
  | a :: alts' =>
    match match_alt a s with
    | Some r => Some r
    | None => first_alt alts' s
    end
  end.

Definition re_Y (s : string) : option (Z * string) :=
  match s with
  | String a (String b (String c (String d rest))) =>
    match digit_val a, digit_val b, digit_val c, digit_val d with
    | Some a, Some b, Some c, Some d =>
      Some (a * 1000 + b * 100 + c * 10 + d, rest)
    | _, _, _, _ => None
    end
  | _ => None
  end.

Definition re_m := first_alt [Two 1 1 0 2; Two 0 0 1 9; One 1 9].
Definition re_d :=
  first_alt [Two 3 3 0 1; Two 1 2 0 9; Two 0 0 1 9; One 1 9; SpaceOne 1 9].
Definition re_H := first_alt [Two 2 2 0 3; Two 0 1 0 9; One 0 9].
Definition re_M := first_alt [Two 0 5 0 9; One 0 9].
Definition re_S := first_alt [Two 6 6 0 1; Two 0 5 0 9; One 0 9].

Definition lit (c : ascii) (s : string) : option string :=
  match s with
  | String c' rest => if Ascii.eqb c c' then Some rest else None
  | EmptyString => None
  end.

Fixpoint skip_spaces (s : string) : string :=
  match s with
  | String c rest => if is_space c then skip_spaces rest else s
  | EmptyString => s
  end.

Definition spaces1 (s : string) : option string :=
  match s with
  | String c rest => if is_space c then Some (skip_spaces rest) else None
  | EmptyString => None
  end.

Definition obind {A B} (o : option A) (k : A -> option B) : option B :=
  match o with Some a => k a | None => None end.

Definition match_format (s : string) : option (Z * Z * Z * Z * Z * Z * string) :=
  obind (re_Y s) (fun '(y, s) =>
  obind (lit "-" s) (fun s =>
  obind (re_m s) (fun '(m, s) =>
  obind (lit "-" s) (fun s =>
  obind (re_d s) (fun '(d, s) =>
  obind (spaces1 s) (fun s =>
  obind (re_H s) (fun '(h, s) =>
  obind (lit ":" s) (fun s =>
  obind (re_M s) (fun '(mi, s) =>
  obind (lit ":" s) (fun s =>
  obind (re_S s) (fun '(sec, s) =>
  Some (y, m, d, h, mi, sec, s)))))))))))).

(** [datetime.strptime(s, "%Y-%m-%d %H:%M:%S")]: no match, unconverted
    trailing data and out-of-range fields are each a [ValueError]. *)

Definition strptime (s : string) : result datetime :=
  match match_format s with
  | Some (y, m, d, h, mi, sec, EmptyString) => new_datetime y m d h mi sec
  | _ => Raise ValueError
  end.

End TimeFormat.

(** ** The reminders table *)

(** One row of [reminders], in column order (the tuple that [SELECT *]
    returns).  [recurring_interval] and [recurring_unit] are nullable. *)

Record reminder : Type := mkReminder {
  id : Z;
  message : string;
  remind_time : string;
  is_recurring : Z;
  recurring_interval : option Z;
  recurring_unit : option string;
  is_completed : Z;
  created_at : string
}.

(** The table is the list of its rows in ascending [id], the order in
    which a scan of the table returns them ([id] is the INTEGER PRIMARY
    KEY, and the [SELECT] of the scheduler has no ORDER BY). *)
Definition table : Type := list reminder.

Fixpoint id_ordered (t : table) : Prop :=
  match t with
  | [] => True
  | r :: t' => (forall x, In x t' -> id r < id x) /\ id_ordered t'
  end.

Definition set_remind_time (s : string) (r : reminder) : reminder :=
  mkReminder (id r) (message r) s (is_recurring r) (recurring_interval r)
    (recurring_unit r) (is_completed r) (created_at r).

Definition set_is_completed (v : Z) (r : reminder) : reminder :=
  mkReminder (id r) (message r) (remind_time r) (is_recurring r)
    (recurring_interval r) (recurring_unit r) v (created_at r).

(** [UPDATE reminders SET ... WHERE id = ?] *)
Definition update_where_id (i : Z) (f : reminder -> reminder) (t : table) : table :=
  map (fun r => if id r =? i then f r else r) t.

(** [WHERE is_completed = 0 AND remind_time <= ?]: a comparison of text. *)
Definition due (now : string) (r : reminder) : bool :=
  (is_completed r =? 0) && String.leb (remind_time r) now.

(** ** The recurrence computation of [update_recurring_reminder]

    The branch on [unit] that yields [new_time]; [None] is the final
    [else: return].  A NULL interval reaches the arithmetic as [None] and
    is a [TypeError]. *)

Definition rbind {A B} (r : result A) (k : A -> result B) : result B :=
  match r with Ok a => k a | Raise e => Raise e end.

Notation "x <-- c1 ;; c2" := (rbind c1 (fun x => c2))
  (at level 61, c1 at next level, right associativity).

Definition py_int (v : option Z) : result Z :=
  match v with Some n => Ok n | None => Raise TypeError end.

Definition unit_is (unit : option string) (name : string) : bool :=
  match unit with Some u => String.eqb u name | None => false end.

Definition next_time (remind_time : PyDatetime.datetime)
    (interval : option Z) (unit : option string)
    : result (option PyDatetime.datetime) :=
  if unit_is unit "minutes" then
    n <-- py_int interval ;; td <-- PyDatetime.timedelta_minutes n ;;
    new_time <-- PyDatetime.add remind_time td ;; Ok (Some new_time)
  else if unit_is unit "hours" then
    n <-- py_int interval ;; td <-- PyDatetime.timedelta_hours n ;;
    new_time <-- PyDatetime.add remind_time td ;; Ok (Some new_time)
  else if unit_is unit "days" then
    n <-- py_int interval ;; td <-- PyDatetime.timedelta_days n ;;
    new_time <-- PyDatetime.add remind_time td ;; Ok (Some new_time)
  else if unit_is unit "weeks" then
    n <-- py_int interval ;; td <-- PyDatetime.timedelta_weeks n ;;
    new_time <-- PyDatetime.add remind_time td ;; Ok (Some new_time)
  else if unit_is unit "months" then
    n <-- py_int interval ;;
    new_time <-- PyDatetime.replace_ym remind_time
      (PyDatetime.year remind_time + (PyDatetime.month remind_time + n - 1) / 12)
      ((PyDatetime.month remind_time + n - 1) mod 12 + 1) ;;
    Ok (Some new_time)
  else Ok None.

(** ** Observable effects and the state they act on *)

Inductive event : Type :=
| EvPut (r : reminder)                  (* reminder_queue.put(reminder) *)
| EvUpdateTime (i : Z) (s : string)     (* UPDATE ... SET remind_time = ? *)
| EvComplete (i : Z)                    (* UPDATE ... SET is_completed = 1 *)
| EvCommit                              (* conn.commit() *)
| EvClose                               (* conn.close() *)
| EvPrint (e : exn)                     (* print(...) in the handler *)
| EvSleep (secs : Z)                    (* time.sleep(secs) *)
| EvShow (r : reminder)                 (* show_reminder(reminder) *)
| EvRefresh.                            (* load_reminders() *)

(** [db] is the content of the database file (what has been committed);
    [conn] is what the scheduler thread's own connection sees: the
    committed rows plus the changes of its open transaction.  [calls]
    counts the store operations made so far, and [trace] records every
    effect in the order it happened. *)

Record state : Type := mkState {
  db : table;
  conn : table;
  reminder_queue : list reminder;
  calls : nat;
  trace : list event
}.

Definition M (A : Type) : Type := state -> result A * state.

Definition ret {A} (a : A) : M A := fun s => (Ok a, s).

Definition bind {A B} (m : M A) (k : A -> M B) : M B :=
  fun s => match m s with
           | (Ok a, s') => k a s'
           | (Raise e, s') => (Raise e, s')
           end.

Definition raise {A} (e : exn) : M A := fun s => (Raise e, s).

Definition lift {A} (r : result A) : M A := fun s => (r, s).

(** [try: body except Exception as e: handler(e)] *)
Definition try_except (body : M unit) (handler : exn -> M unit) : M unit :=
  fun s => match body s with
           | (Ok tt, s') => (Ok tt, s')
           | (Raise e, s') => handler e s'
           end.

Declare Scope sched_scope.
Delimit Scope sched_scope with sched.
Notation "x <- c1 ;; c2" := (bind c1 (fun x => c2))
  (at level 61, c1 at next level, right associativity) : sched_scope.
Notation "c1 ;; c2" := (bind c1 (fun _ => c2))
  (at level 61, right associativity) : sched_scope.
Open Scope sched_scope.

Definition emit (e : event) : M unit :=
  fun s => (Ok tt, mkState (db s) (conn s) (reminder_queue s) (calls s)
                     (trace s ++ [e])).

Definition set_conn (t : table) : M unit :=
  fun s => (Ok tt, mkState (db s) t (reminder_queue s) (calls s) (trace s)).

Definition set_db (t : table) : M unit :=
  fun s => (Ok tt, mkState t (conn s) (reminder_queue s) (calls s) (trace s)).

Definition set_queue (q : list reminder) : M unit :=
  fun s => (Ok tt, mkState (db s) (conn s) q (calls s) (trace s)).

Definition get {A} (f : state -> A) : M A := fun s => (Ok (f s), s).

Fixpoint for_each {A} (l : list A) (body : A -> M unit) : M unit :=
  match l with
  | [] => ret tt
  | x :: l' => body x ;; for_each l' body
  end.

Section Engine.

(** Which store operations fail: operation number [k] (counted over the
    whole run) raises [sqlite3.OperationalError] when [faults k] holds. *)
Variable faults : nat -> bool.

Definition store_call : M unit :=
  fun s =>
    let s' := mkState (db s) (conn s) (reminder_queue s) (S (calls s)) (trace s) in
    if faults (calls s) then (Raise OperationalError, s') else (Ok tt, s').

(** [sqlite3.connect('taskmanager.db')]: a fresh connection, whose view is
    the committed content.  The previous connection, if an exception left
    it open, is dropped here together with its uncommitted changes. *)
Definition connect : M unit :=
  store_call ;; t <- get db ;; set_conn t.

(** [SELECT * FROM reminders WHERE is_completed = 0 AND remind_time <= ?]:
    the matching rows in the order of the table, which for an [id_ordered]
    table is ascending [id]. *)
Definition select_due (now : string) : M (list reminder) :=
  store_call ;; t <- get conn ;; ret (filter (due now) t).

(** [UPDATE reminders SET remind_time = ? WHERE id = ?] *)
Definition execute_update_time (s : string) (i : Z) : M unit :=
  store_call ;; t <- get conn ;;
  set_conn (update_where_id i (set_remind_time s) t) ;;
  emit (EvUpdateTime i s).

(** [UPDATE reminders SET is_completed = 1 WHERE id = ?] *)
Definition execute_complete (i : Z) : M unit :=
  store_call ;; t <- get conn ;;
  set_conn (update_where_id i (set_is_completed 1) t) ;;
  emit (EvComplete i).

(** [conn.commit()] *)
Definition commit : M unit :=
  store_call ;; t <- get conn ;; set_db t ;; emit EvCommit.

(** [conn.close()]: the open transaction, if any, is rolled back. *)
Definition close : M unit :=
  t <- get db ;; set_conn t ;; emit EvClose.

(** [self.reminder_queue.put(reminder)]: the queue is unbounded. *)
Definition put (r : reminder) : M unit :=
  q <- get reminder_queue ;; set_queue (q ++ [r]) ;; emit (EvPut r).

Definition update_recurring_reminder (r : reminder) : M unit :=
  remind_time <- lift (TimeFormat.strptime (remind_time r)) ;;
  new_time <- lift (next_time remind_time (recurring_interval r)
                      (recurring_unit r)) ;;
  match new_time with
  | None => ret tt
  | Some new_time =>
    execute_update_time (TimeFormat.strftime new_time) (id r)
  end.

(** The body of the [for reminder in reminders] loop. *)
Definition resolve (r : reminder) : M unit :=
  put r ;;
  if negb (is_recurring r =? 0) then update_recurring_reminder r
  else execute_complete (id r) ;; commit.

(** One iteration of [while self.reminder_active], with [now] the reading
    of [datetime.now()]: the [try] block, the [except Exception] handler,
    and the two together. *)
Definition cycle_body (now : PyDatetime.datetime) : M unit :=
  connect ;;
  reminders <- select_due (TimeFormat.strftime now) ;;
  for_each reminders resolve ;;
  close ;;
  emit (EvSleep 60).

Definition cycle_handler (e : exn) : M unit :=
  emit (EvPrint e) ;; emit (EvSleep 10).

Definition check_reminders_cycle (now : PyDatetime.datetime) : M unit :=
  try_except (cycle_body now) cycle_handler.

(** [check_reminders]: the loop runs one cycle per clock reading for as
    long as [reminder_active] stays set; an exception that escaped a cycle
    would end it. *)
Fixpoint check_reminders (clock : list PyDatetime.datetime) : M unit :=
  match clock with
  | [] => ret tt
  | now :: clock' => check_reminders_cycle now ;; check_reminders clock'
  end.

(** [load_reminders]: re-reads the pending rows through the main
    connection and parses each [remind_time]; the list control itself is
    not modelled. *)
Definition load_reminders : M unit :=
  emit EvRefresh ;;
  store_call ;;
  t <- get db ;;
  for_each (filter (fun r => is_completed r =? 0) t)
    (fun rem => _ <- lift (TimeFormat.strptime (remind_time rem)) ;; ret tt).

Definition show_reminder (r : reminder) : M unit := emit (EvShow r).

(** The [while not self.reminder_queue.empty()] loop, by recursion on the
    queued items. *)
Fixpoint drain (q : list reminder) : M unit :=
  match q with
  | [] => ret tt
  | reminder :: q' =>
    set_queue q' ;; show_reminder reminder ;; load_reminders ;; drain q'
  end.

Definition process_reminder_queue : M unit :=
  q <- get reminder_queue ;; drain q.

End Engine.

(** Events appended by a computation. *)
Definition new_events (before after : state) : list event :=
  skipn (List.length (trace before)) (trace after).

Definition no_faults : nat -> bool := fun _ => false.

(** ** Notions the specification states properties with *)

Definition supported_units : list string :=
  ["minutes"; "hours"; "days"; "weeks"; "months"]%string.

(** Length in seconds of one unit of fixed duration. *)
Definition unit_seconds (unit : string) : option Z :=
  if String.eqb unit "minutes" then Some 60
  else if String.eqb unit "hours" then Some 3600
  else if String.eqb unit "days" then Some 86400
  else if String.eqb unit "weeks" then Some 604800
  else None.

(** The month rule in the specification's words: with the month counted
    from 0, add the interval, take the month modulo 12 and carry the
    quotient into the year; every other field is kept. *)
Definition months_target (base : PyDatetime.datetime) (interval : Z)
    : PyDatetime.datetime :=
  let m0 := PyDatetime.month base - 1 in
  let y0 := PyDatetime.year base in
  let total := m0 + interval in
  PyDatetime.mkdt (y0 + total / 12) (total mod 12 + 1)
    (PyDatetime.day base) (PyDatetime.hour base)
    (PyDatetime.minute base) (PyDatetime.second base).

(** The reminder a store mutation is addressed to. *)
Definition mutated_id (e : event) : option Z :=
  match e with
  | EvUpdateTime i _ => Some i
  | EvComplete i => Some i
  | _ => None
  end.

(** The reminders that a run of events put on the queue, in order. *)
Fixpoint puts (es : list event) : list reminder :=
  match es with
  | [] => []
  | EvPut r :: es' => r :: puts es'
  | _ :: es' => puts es'
  end.

Definition rows_with (i : Z) (t : table) : table :=
  filter (fun r => id r =? i) t.

(** The state of a cycle once [connect] and the [SELECT] have succeeded,
    once the loop has ended and the connection is closed, and once the
    handler has run. *)
Definition after_select (s : state) : state :=
  mkState (db s) (db s) (reminder_queue s) (S (S (calls s))) (trace s).

Definition after_close (s : state) : state :=
  mkState (db s) (db s) (reminder_queue s) (calls s)
    (trace s ++ [EvClose; EvSleep 60]).

Definition after_handler (e : exn) (s : state) : state :=
  mkState (db s) (conn s) (reminder_queue s) (calls s)
    (trace s ++ [EvPrint e; EvSleep 10]).

(** The store mutations that may follow the [put] of reminder [r] inside
    one pass of the loop body. *)
Inductive body_muts (r : reminder) : list event -> Prop :=
| muts_none : body_muts r []
| muts_update s : body_muts r [EvUpdateTime (id r) s]
| muts_complete : body_muts r [EvComplete (id r)]
| muts_complete_commit : body_muts r [EvComplete (id r); EvCommit].

(** Events that are neither a [put] nor a store mutation. *)
Definition inert (e : event) : Prop :=
  match e with
  | EvPut _ | EvUpdateTime _ _ | EvComplete _ => False
  | _ => True
  end.

(** The shape of the events of one cycle over the selected reminders: one
    block per reminder reached, in order, then an inert tail. *)
Inductive cycle_events : list reminder -> list event -> Prop :=
| ce_stop l tail : Forall inert tail -> cycle_events l tail
| ce_step r l muts es :
    body_muts r muts -> cycle_events l es ->
    cycle_events (r :: l) (EvPut r :: muts ++ es).

(** ** The scenarios of the specification, as concrete states

    The clock reads 2024-01-31 10:00:00 and every reminder below became
    due one second earlier. *)

Module Scenario.

Definition now : PyDatetime.datetime := PyDatetime.mkdt 2024 1 31 10 0 0.

Definition one_shot : reminder :=
  mkReminder 1 "call the bank" "2024-01-31 09:59:59" 0 None None 0
    "2024-01-30 08:00:00".

Definition daily : reminder :=
  mkReminder 2 "stand-up" "2024-01-31 09:59:59" 1 (Some 1) (Some "days"%string)
    0 "2024-01-30 08:00:00".

Definition yearly : reminder :=
  mkReminder 3 "renew" "2024-01-31 09:59:59" 1 (Some 1) (Some "years"%string)
    0 "2024-01-30 08:00:00".

Definition monthly : reminder :=
  mkReminder 3 "pay the rent" "2024-01-31 09:59:59" 1 (Some 1)
    (Some "months"%string) 0 "2024-01-30 08:00:00".

Definition second_one_shot : reminder :=
  mkReminder 4 "water the plants" "2024-01-31 09:59:59" 0 None None 0
    "2024-01-30 08:00:00".

(** A freshly started application over table [t]. *)
Definition start (t : table) : state := mkState t [] [] 0 [].

(** Scenario A an instant after its cycle: the one-shot reminder queued
    and completed in the file. *)
Definition after_scenario_A : state :=
  mkState [set_is_completed 1 one_shot] [set_is_completed 1 one_shot]
    [one_shot] 4
    [EvPut one_shot; EvComplete 1; EvCommit; EvClose; EvSleep 60].

(** Only store operation number [k] fails. *)
Definition fail_at (k : nat) : nat -> bool := Nat.eqb k.

End Scenario.


(** ** The reminder dialog: [ReminderDialog.get_data] and the unit maps *)

Module Dialog.

(** Python's [str] of an integer, and the format specification [02d]: the
    decimal form, padded with a zero on the left to two characters. *)
Definition py_str (n : Z) : string :=
  DecimalString.NilZero.string_of_int (Z.to_int n).

Definition fmt_02d (n : Z) : string :=
  let s := py_str n in
  if (String.length s <? 2)%nat then String "0" s else s.

(** What the widgets of the dialog return when [get_data] reads them.
    [date] is [None] when [date.IsValid()] is false, and otherwise the
    results of [GetYear()], [GetMonth()] (counted from 0) and [GetDay()]. *)
Record form : Type := mkForm {
  f_message : string;
  f_date : option (Z * Z * Z);
  f_time : Z;
  f_minutes : Z;
  f_recurring : bool;
  f_interval : Z;
  f_unit : string
}.

(** The dictionary of [get_data], with its default: [unit_map.get(label,
    "days")]. *)
Definition unit_of_label (label : string) : string :=
  if String.eqb label "минуты" then "minutes"
  else if String.eqb label "часы" then "hours"
  else if String.eqb label "дни" then "days"
  else if String.eqb label "недели" then "weeks"
  else if String.eqb label "месяцы" then "months"
  else "days".

(** The dictionary of [set_data], with its default: [{...}.get(data[5],
    "дни")]. *)
Definition label_of_unit (unit : option string) : string :=
  if unit_is unit "minutes" then "минуты"
  else if unit_is unit "hours" then "часы"
  else if unit_is unit "days" then "дни"
  else if unit_is unit "weeks" then "недели"
  else if unit_is unit "months" then "месяцы"
  else "дни".

(** The tuple that [get_data] returns: message, remind_time, is_recurring,
    interval, unit.  [now] is the reading of [datetime.now()] used when
    the date control holds no valid date. *)
Definition get_data (f : form) (now : PyDatetime.datetime)
    : string * string * bool * option Z * option string :=
  let remind_time :=
    match f_date f with
    | Some (y, m, d) =>
      (py_str y ++ "-" ++ fmt_02d (m + 1) ++ "-" ++ fmt_02d d ++ " " ++
       fmt_02d (f_time f) ++ ":" ++ fmt_02d (f_minutes f) ++ ":00")%string
    | None => TimeFormat.strftime now
    end in
  let interval := if f_recurring f then Some (f_interval f) else None in
  let unit :=
    if f_recurring f then Some (unit_of_label (f_unit f)) else None in
  (f_message f, remind_time, f_recurring f, interval, unit).

(** The row that [on_add_reminder] inserts for such a tuple: the id is
    assigned by the table and the two remaining columns take their
    defaults. *)
Definition inserted_row (new_id : Z) (created : string)
    (data : string * string * bool * option Z * option string) : reminder :=
  let '(message, remind_time, is_recurring, interval, unit) := data in
  mkReminder new_id message remind_time (if is_recurring then 1 else 0)
    interval unit 0 created.

End Dialog.

(** ** Further notions used in the properties *)

(** The reminders shown by a run of events, in order. *)
Fixpoint shows (es : list event) : list reminder :=
  match es with
  | [] => []
  | EvShow r :: es' => r :: shows es'
  | _ :: es' => shows es'
  end.

(** The events that end a cycle: closing the connection, printing a
    caught exception, and waiting. *)
Fixpoint control (es : list event) : list event :=
  match es with
  | [] => []
  | EvClose :: es' => EvClose :: control es'
  | EvPrint e :: es' => EvPrint e :: control es'
  | EvSleep n :: es' => EvSleep n :: control es'
  | _ :: es' => control es'
  end.

(** How a cycle ends: with no exception the connection is closed and the
    wait is 60 seconds; a caught exception is printed and the wait is 10
    seconds. *)
Definition cycle_end (caught : option exn) : list event :=
  match caught with
  | None => [EvClose; EvSleep 60]
  | Some e => [EvPrint e; EvSleep 10]
  end.

(** Text made of ASCII characters only. *)
Fixpoint ascii_only (s : string) : bool :=
  match s with
  | EmptyString => true
  | String c s' => (nat_of_ascii c <? 128)%nat && ascii_only s'
  end.

(** Three-way comparison of two tuples of integers, field by field. *)
Fixpoint lex_compare (a b : list Z) : comparison :=
  match a, b with
  | x :: a', y :: b' =>
    match x ?= y with Eq => lex_compare a' b' | c => c end
  | [], [] => Eq
  | [], _ :: _ => Lt
  | _ :: _, [] => Gt
  end.

(** Whether the [remind_time] of a row parses, and the rows that
    [load_reminders] reads. *)
Definition parses (r : reminder) : bool :=
  match TimeFormat.strptime (remind_time r) with
  | Ok _ => true
  | Raise _ => false
  end.

Definition pending (t : table) : table :=
  filter (fun r => is_completed r =? 0) t.

(** The state after [load_reminders] has cleared the list and queried the
    store. *)
Definition refreshed (s : state) : state :=
  mkState (db s) (conn s) (reminder_queue s) (S (calls s))
    (trace s ++ [EvRefresh]).
(** * Properties *)

(** ** The calendar conversions

    [ord2ymd] inverts [ymd2ord] on the ordinals of the years 1 to 9999, and
    [ymd2ord] is strictly increasing in the order of (year, month, day);
    together they make the order of datetimes the order of their second
    counts. *)

Module CalendarFacts.
Import PyDatetime.


Lemma zrange_forallb (f : Z -> bool) (n : nat) :
  forallb f (zrange n) = true ->
  forall z, 0 <= z < Z.of_nat n -> f z = true.
Proof.
  intros H z Hz. unfold zrange in H.
  rewrite forallb_forall in H. apply H.
  replace z with (Z.of_nat (Z.to_nat z)) by lia.
  apply in_map, in_seq. lia.
Qed.

Lemma yday_split_sound (leapyear : bool) (n : Z) :
  0 <= n < 365 -> yday_split_ok leapyear n = true.
Proof.
  intros Hn. revert n Hn. change 365 with (Z.of_nat 365).
  apply zrange_forallb. destruct leapyear; vm_compute; reflexivity.
Qed.

Lemma dby_step (y : Z) :
  days_before_year (y + 1) = days_before_year y + 365 + b2z (is_leap y).
Proof.
  unfold days_before_year, is_leap, b2z.
  replace (y + 1 - 1) with y by lia.
  destruct (Z.eqb_spec (y mod 4) 0), (Z.eqb_spec (y mod 100) 0),
    (Z.eqb_spec (y mod 400) 0); cbn [andb orb negb];
    Z.div_mod_to_equations; lia.
Qed.

Lemma ord2ymd_unfold (n : Z) :
  ord2ymd n =
  let n0 := n - 1 in
  let n400 := n0 / 146097 in let r400 := n0 mod 146097 in
  let n100 := r400 / 36524 in let r100 := r400 mod 36524 in
  let n4 := r100 / 1461 in let r4 := r100 mod 1461 in
  let n1 := r4 / 365 in let r1 := r4 mod 365 in
  let y := n400 * 400 + 1 + (n100 * 100 + n4 * 4 + n1) in
  if (n1 =? 4) || (n100 =? 4) then (y - 1, 12, 31)
  else
    let leapyear := (n1 =? 3) && (negb (n4 =? 24) || (n100 =? 3)) in
    let '(m, d) := yday_split leapyear r1 in (y, m, d).
Proof.
  unfold ord2ymd, yday_split, DI400Y, DI100Y, DI4Y. cbv zeta.
  destruct ((_ =? 4) || (_ =? 4)); [reflexivity|].
  destruct (_ <? _); reflexivity.
Qed.

Lemma leap_flag (n400 n100 n4 n1 : Z) :
  0 <= n100 <= 3 -> 0 <= n4 <= 24 -> 0 <= n1 <= 3 ->
  is_leap (n400 * 400 + 1 + (n100 * 100 + n4 * 4 + n1)) =
  (n1 =? 3) && (negb (n4 =? 24) || (n100 =? 3)).
Proof.
  intros H100 H4 H1. unfold is_leap.
  set (y := n400 * 400 + 1 + (n100 * 100 + n4 * 4 + n1)).
  assert (E4 : y mod 4 = (n1 + 1) mod 4).
  { unfold y. replace (n400 * 400 + 1 + (n100 * 100 + n4 * 4 + n1))
      with (n1 + 1 + (n400 * 100 + n100 * 25 + n4) * 4) by lia.
    apply Z.mod_add. lia. }
  assert (E100 : y mod 100 = (n4 * 4 + n1 + 1) mod 100).
  { unfold y. replace (n400 * 400 + 1 + (n100 * 100 + n4 * 4 + n1))
      with (n4 * 4 + n1 + 1 + (n400 * 4 + n100) * 100) by lia.
    apply Z.mod_add. lia. }
  assert (E400 : y mod 400 = (n100 * 100 + n4 * 4 + n1 + 1) mod 400).
  { unfold y. replace (n400 * 400 + 1 + (n100 * 100 + n4 * 4 + n1))
      with (n100 * 100 + n4 * 4 + n1 + 1 + n400 * 400) by lia.
    apply Z.mod_add. lia. }
  rewrite E4, E100, E400. clear E4 E100 E400 y.
  destruct (Z.eqb_spec n1 3), (Z.eqb_spec n4 24), (Z.eqb_spec n100 3);
    destruct (Z.eqb_spec ((n1 + 1) mod 4) 0),
      (Z.eqb_spec ((n4 * 4 + n1 + 1) mod 100) 0),
      (Z.eqb_spec ((n100 * 100 + n4 * 4 + n1 + 1) mod 400) 0);
    cbn [andb orb negb]; try reflexivity; exfalso;
    Z.div_mod_to_equations; lia.
Qed.

Lemma dby_decomposed (n400 n100 n4 n1 : Z) :
  0 <= n100 <= 3 -> 0 <= n4 <= 24 -> 0 <= n1 <= 3 ->
  days_before_year (n400 * 400 + 1 + (n100 * 100 + n4 * 4 + n1)) =
  n400 * 146097 + n100 * 36524 + n4 * 1461 + n1 * 365.
Proof.
  intros H100 H4 H1. unfold days_before_year.
  replace (n400 * 400 + 1 + (n100 * 100 + n4 * 4 + n1) - 1)
    with (n400 * 400 + n100 * 100 + n4 * 4 + n1) by lia.
  Z.div_mod_to_equations. lia.
Qed.

Lemma date_ok_intro (y m d : Z) :
  1 <= y <= 9999 -> 1 <= m <= 12 -> 1 <= d <= days_in_month y m ->
  date_ok y m d = true.
Proof.
  intros Hy Hm Hd. unfold date_ok, MINYEAR, MAXYEAR.
  repeat (apply andb_true_intro; split); apply Z.leb_le; lia.
Qed.

Lemma date_ok_elim (y m d : Z) :
  date_ok y m d = true ->
  1 <= y <= 9999 /\ 1 <= m <= 12 /\ 1 <= d <= days_in_month y m.
Proof.
  unfold date_ok, MINYEAR, MAXYEAR. intros H.
  repeat (apply andb_prop in H; destruct H as [H ?]).
  repeat match goal with H : (_ <=? _) = true |- _ => apply Z.leb_le in H end.
  lia.
Qed.

Lemma is_leap_400 (k : Z) : is_leap (k * 400) = true.
Proof.
  unfold is_leap.
  destruct (Z.eqb_spec ((k * 400) mod 4) 0),
    (Z.eqb_spec ((k * 400) mod 100) 0),
    (Z.eqb_spec ((k * 400) mod 400) 0); cbn [andb orb negb];
    try reflexivity; exfalso; Z.div_mod_to_equations; lia.
Qed.

Lemma dbm_december (y : Z) :
  days_before_month y 12 = 334 + b2z (is_leap y).
Proof. reflexivity. Qed.

Lemma ord2ymd_correct (n : Z) :
  1 <= n <= MAXORDINAL ->
  let '(y, m, d) := ord2ymd n in
  date_ok y m d = true /\ ymd2ord y m d = n.
Proof.
  unfold MAXORDINAL. intros Hn. rewrite ord2ymd_unfold. cbv zeta.
  assert (Hn0 : 0 <= n - 1 <= 3652058 /\ n = (n - 1) + 1) by lia.
  generalize dependent (n - 1). intros n0 [Hn0 En].
  pose proof (Z.div_mod n0 146097 ltac:(lia)) as E400.
  pose proof (Z.mod_pos_bound n0 146097 ltac:(lia)) as B400.
  set (n400 := n0 / 146097) in *. set (r400 := n0 mod 146097) in *.
  pose proof (Z.div_mod r400 36524 ltac:(lia)) as E100.
  pose proof (Z.mod_pos_bound r400 36524 ltac:(lia)) as B100.
  set (n100 := r400 / 36524) in *. set (r100 := r400 mod 36524) in *.
  pose proof (Z.div_mod r100 1461 ltac:(lia)) as E4.
  pose proof (Z.mod_pos_bound r100 1461 ltac:(lia)) as B4.
  set (n4 := r100 / 1461) in *. set (r4 := r100 mod 1461) in *.
  pose proof (Z.div_mod r4 365 ltac:(lia)) as E1.
  pose proof (Z.mod_pos_bound r4 365 ltac:(lia)) as B1.
  set (n1 := r4 / 365) in *. set (r1 := r4 mod 365) in *.
  assert (H400 : 0 <= n400 <= 24) by lia.
  assert (H100 : 0 <= n100 <= 4) by lia.
  assert (H4 : 0 <= n4 <= 24) by lia.
  assert (H1 : 0 <= n1 <= 4) by lia.
  destruct (Z.eqb_spec n1 4) as [K1|K1]; cbn [orb].
  - (* last day of a leap year closing a 4-year cycle *)
    assert (n4 <= 23) by lia. assert (n100 <= 3) by lia.
    assert (Hr : r1 = 0) by lia.
    replace (n400 * 400 + 1 + (n100 * 100 + n4 * 4 + n1) - 1)
      with (n400 * 400 + 1 + (n100 * 100 + n4 * 4 + 3)) by lia.
    assert (L : is_leap (n400 * 400 + 1 + (n100 * 100 + n4 * 4 + 3)) = true).
    { rewrite leap_flag by lia.
      destruct (Z.eqb_spec n4 24); [lia | reflexivity]. }
    split.
    + apply date_ok_intro; try lia.
      change (days_in_month _ 12) with 31. lia.
    + unfold ymd2ord. rewrite dbm_december, L, dby_decomposed by lia.
      cbn [b2z]. lia.
  - destruct (Z.eqb_spec n100 4) as [K100|K100].
    + (* last day of a 400-year cycle *)
      assert (n4 = 0 /\ n1 = 0 /\ r1 = 0) as (Z4 & Z1 & Zr) by lia.
      replace (n400 * 400 + 1 + (n100 * 100 + n4 * 4 + n1) - 1)
        with ((n400 + 1) * 400 + 1 + (-1 * 100 + 24 * 4 + 3)) by lia.
      assert (L : is_leap ((n400 + 1) * 400 + 1 + (-1 * 100 + 24 * 4 + 3)) = true).
      { replace ((n400 + 1) * 400 + 1 + (-1 * 100 + 24 * 4 + 3))
          with ((n400 + 1) * 400) by lia.
        apply is_leap_400. }
      split.
      * apply date_ok_intro; try lia.
        change (days_in_month _ 12) with 31. lia.
      * unfold ymd2ord. rewrite dbm_december, L.
        unfold days_before_year. cbn [b2z].
        Z.div_mod_to_equations. lia.
    + assert (G100 : 0 <= n100 <= 3) by lia.
      assert (G1 : 0 <= n1 <= 3) by lia.
      set (leapyear := (n1 =? 3) && (negb (n4 =? 24) || (n100 =? 3))).
      pose proof (yday_split_sound leapyear r1 B1) as S.
      unfold yday_split_ok, dim_l, dbm_l in S.
      destruct (yday_split leapyear r1) as [m d].
      repeat (apply andb_prop in S; destruct S as [S ?]).
      repeat match goal with
             | H : (_ <=? _) = true |- _ => apply Z.leb_le in H
             | H : (_ =? _) = true |- _ => apply Z.eqb_eq in H
             end.
      pose proof (leap_flag n400 n100 n4 n1 G100 H4 G1) as L.
      fold leapyear in L.
      split.
      * apply date_ok_intro; try lia.
        unfold days_in_month. rewrite L. lia.
      * unfold ymd2ord, days_before_month. rewrite L, dby_decomposed by lia.
        lia.
Qed.

Lemma month_tables (l : bool) (m1 m2 : Z) :
  1 <= m1 <= 12 -> 1 <= m2 <= 12 ->
  0 <= dbm_l l m1 /\ 28 <= dim_l l m1 /\
  dbm_l l m1 + dim_l l m1 <= 365 + b2z l /\
  (m1 < m2 -> dbm_l l m1 + dim_l l m1 <= dbm_l l m2).
Proof.
  intros H1 H2.
  assert (A : forallb (fun a => forallb (month_tables_ok l a) (zrange 12))
                (zrange 12) = true)
    by (destruct l; vm_compute; reflexivity).
  pose proof (zrange_forallb _ _ A (m1 - 1) ltac:(lia)) as B. cbv beta in B.
  pose proof (zrange_forallb _ _ B (m2 - 1) ltac:(lia)) as C.
  unfold month_tables_ok in C.
  replace (m1 - 1 + 1) with m1 in C by lia.
  replace (m2 - 1 + 1) with m2 in C by lia.
  repeat (apply andb_prop in C; destruct C as [C ?]).
  repeat match goal with H : (_ <=? _) = true |- _ => apply Z.leb_le in H end.
  repeat split; try assumption.
  intros Hlt.
  destruct (Z.ltb_spec (m1 - 1) (m2 - 1)); [|lia].
  cbn [negb orb] in *.
  match goal with H : (_ <=? _) = true |- _ => apply Z.leb_le in H end.
  assumption.
Qed.

Lemma dby_le (a b : Z) : a <= b -> days_before_year a <= days_before_year b.
Proof.
  intros H. unfold days_before_year. Z.div_mod_to_equations. lia.
Qed.

Lemma ymd2ord_lt (y1 m1 d1 y2 m2 d2 : Z) :
  date_ok y1 m1 d1 = true -> date_ok y2 m2 d2 = true ->
  lex_ltb [y1; m1; d1] [y2; m2; d2] = true ->
  ymd2ord y1 m1 d1 < ymd2ord y2 m2 d2.
Proof.
  intros V1 V2 L.
  apply date_ok_elim in V1. apply date_ok_elim in V2.
  destruct V1 as (Hy1 & Hm1 & Hd1), V2 as (Hy2 & Hm2 & Hd2).
  unfold ymd2ord.
  change (days_in_month y1 m1) with (dim_l (is_leap y1) m1) in Hd1.
  change (days_in_month y2 m2) with (dim_l (is_leap y2) m2) in Hd2.
  change (days_before_month y1 m1) with (dbm_l (is_leap y1) m1).
  change (days_before_month y2 m2) with (dbm_l (is_leap y2) m2).
  pose proof (month_tables (is_leap y1) m1 m2 Hm1 Hm2) as (A1 & A2 & A3 & A4).
  pose proof (month_tables (is_leap y2) m2 m1 Hm2 Hm1) as (B1 & B2 & B3 & B4).
  cbn [lex_ltb] in L.
  destruct (Z.ltb_spec y1 y2) as [Hy|Hy]; cbn [orb] in L.
  - pose proof (dby_step y1) as S.
    pose proof (dby_le (y1 + 1) y2 ltac:(lia)). lia.
  - destruct (Z.eqb_spec y1 y2) as [->|]; cbn [andb] in L; [|discriminate].
    destruct (Z.ltb_spec m1 m2) as [Hm|Hm]; cbn [orb] in L.
    + specialize (A4 Hm). lia.
    + destruct (Z.eqb_spec m1 m2) as [->|]; cbn [andb] in L; [|discriminate].
      destruct (Z.ltb_spec d1 d2); cbn [orb] in L; [lia|].
      rewrite andb_false_r in L. discriminate.
Qed.

Lemma time_ok_elim (h mi s : Z) :
  time_ok h mi s = true -> 0 <= h <= 23 /\ 0 <= mi <= 59 /\ 0 <= s <= 59.
Proof.
  unfold time_ok. intros H.
  repeat (apply andb_prop in H; destruct H as [H ?]).
  repeat match goal with H : (_ <=? _) = true |- _ => apply Z.leb_le in H end.
  lia.
Qed.

Lemma time_ok_intro (h mi s : Z) :
  0 <= h <= 23 -> 0 <= mi <= 59 -> 0 <= s <= 59 -> time_ok h mi s = true.
Proof.
  intros. unfold time_ok.
  repeat (apply andb_true_intro; split); apply Z.leb_le; lia.
Qed.

Lemma lex_ltb_trichotomy (a b : list Z) :
  List.length a = List.length b ->
  lex_ltb a b = true \/ a = b \/ lex_ltb b a = true.
Proof.
  revert b. induction a as [|x a IH]; intros [|y b] Hl; try discriminate.
  - right; left; reflexivity.
  - cbn [lex_ltb]. injection Hl as Hl. specialize (IH b Hl).
    destruct (Z.ltb_spec x y), (Z.ltb_spec y x); cbn [orb]; try lia; auto.
    assert (x = y) by lia. subst y. rewrite Z.eqb_refl. cbn [andb].
    destruct IH as [?|[->|?]]; auto.
Qed.

Lemma ltb_to_seconds (a b : datetime) :
  valid a -> valid b -> ltb a b = true -> to_seconds a < to_seconds b.
Proof.
  intros [Da Ta] [Db Tb] L.
  apply time_ok_elim in Ta. apply time_ok_elim in Tb.
  unfold to_seconds, toordinal. unfold ltb, fields in L.
  pose proof (ymd2ord_lt _ _ _ _ _ _ Da Db) as M.
  cbn [lex_ltb] in L, M.
  destruct (Z.ltb_spec (year a) (year b)); cbn [orb] in *.
  { specialize (M eq_refl). lia. }
  destruct (Z.eqb_spec (year a) (year b)) as [Ey|]; cbn [andb] in *; [|discriminate].
  destruct (Z.ltb_spec (month a) (month b)); cbn [orb] in *.
  { specialize (M eq_refl). lia. }
  destruct (Z.eqb_spec (month a) (month b)) as [Em|]; cbn [andb] in *; [|discriminate].
  destruct (Z.ltb_spec (day a) (day b)); cbn [orb] in *.
  { specialize (M eq_refl). lia. }
  destruct (Z.eqb_spec (day a) (day b)) as [Ed|]; cbn [andb] in *; [|discriminate].
  rewrite Ey, Em, Ed.
  destruct (Z.ltb_spec (hour a) (hour b)); cbn [orb] in *; [lia|].
  destruct (Z.eqb_spec (hour a) (hour b)); cbn [andb] in *; [|discriminate].
  destruct (Z.ltb_spec (minute a) (minute b)); cbn [orb] in *; [lia|].
  destruct (Z.eqb_spec (minute a) (minute b)); cbn [andb] in *; [|discriminate].
  destruct (Z.ltb_spec (second a) (second b)); cbn [orb] in *; [lia|].
  rewrite andb_false_r in L. discriminate.
Qed.

Lemma fields_inj (a b : datetime) : fields a = fields b -> a = b.
Proof.
  destruct a, b. unfold fields. cbn. intros H. injection H as -> -> -> -> -> ->.
  reflexivity.
Qed.

Lemma to_seconds_ltb (a b : datetime) :
  valid a -> valid b -> to_seconds a < to_seconds b -> ltb a b = true.
Proof.
  intros Va Vb H.
  destruct (lex_ltb_trichotomy (fields a) (fields b) eq_refl) as [L|[E|L]].
  - exact L.
  - apply fields_inj in E. subst. lia.
  - pose proof (ltb_to_seconds b a Vb Va L). lia.
Qed.

Lemma to_seconds_inj (a b : datetime) :
  valid a -> valid b -> to_seconds a = to_seconds b -> a = b.
Proof.
  intros Va Vb H.
  destruct (lex_ltb_trichotomy (fields a) (fields b) eq_refl) as [L|[E|L]].
  - pose proof (ltb_to_seconds a b Va Vb L). lia.
  - apply fields_inj; assumption.
  - pose proof (ltb_to_seconds b a Vb Va L). lia.
Qed.


(** [ymd2ord] counts consecutive calendar days consecutively: within a
    month, from the last day of a month to the first of the next, and from
    31 December to 1 January. *)
Lemma ymd2ord_consecutive (y m d : Z) :
  ymd2ord y m (d + 1) = ymd2ord y m d + 1 /\
  (1 <= m <= 11 -> ymd2ord y (m + 1) 1 = ymd2ord y m (days_in_month y m) + 1) /\
  ymd2ord (y + 1) 1 1 = ymd2ord y 12 31 + 1.
Proof.
  unfold ymd2ord. split; [lia|]. split.
  - intros Hm.
    change (days_in_month y m) with (dim_l (is_leap y) m).
    change (days_before_month y m) with (dbm_l (is_leap y) m).
    change (days_before_month y (m + 1)) with (dbm_l (is_leap y) (m + 1)).
    assert (E : dbm_l (is_leap y) (m + 1)
                = dbm_l (is_leap y) m + dim_l (is_leap y) m).
    { assert (C : m = 1 \/ m = 2 \/ m = 3 \/ m = 4 \/ m = 5 \/ m = 6 \/
                  m = 7 \/ m = 8 \/ m = 9 \/ m = 10 \/ m = 11) by lia.
      destruct (is_leap y);
        repeat (destruct C as [->|C]; [reflexivity|]); subst; reflexivity. }
    lia.
  - rewrite dby_step, dbm_december.
    change (days_before_month (y + 1) 1) with 0. lia.
Qed.

End CalendarFacts.

(** ** Datetime addition *)

Module AdditionFacts.
Import PyDatetime CalendarFacts.

Lemma ymd2ord_bounds (y m d : Z) :
  date_ok y m d = true -> 1 <= ymd2ord y m d <= MAXORDINAL.
Proof.
  intros V. apply date_ok_elim in V. destruct V as (Hy & Hm & Hd).
  unfold ymd2ord, MAXORDINAL.
  change (days_in_month y m) with (dim_l (is_leap y) m) in Hd.
  change (days_before_month y m) with (dbm_l (is_leap y) m).
  pose proof (month_tables (is_leap y) m m Hm Hm) as (A1 & A2 & A3 & _).
  pose proof (dby_le 1 y ltac:(lia)) as L.
  pose proof (dby_le (y + 1) 10000 ltac:(lia)) as U.
  rewrite dby_step in U.
  change (days_before_year 1) with 0 in L.
  change (days_before_year 10000) with 3652059 in U.
  lia.
Qed.

Lemma new_timedelta_cases (days secs : Z) :
  match new_timedelta days secs with
  | Ok td =>
    td_days td = days + secs / 86400 /\ td_seconds td = secs mod 86400
    /\ Z.abs (td_days td) <= 999999999
  | Raise e => e = OverflowError /\ 999999999 < Z.abs (days + secs / 86400)
  end.
Proof.
  unfold new_timedelta.
  destruct (Z.leb_spec (Z.abs (days + secs / 86400)) 999999999); cbn; auto.
Qed.

Lemma time_of_day_fields (x : Z) :
  0 <= x < 86400 ->
  time_ok (x / 3600) (x mod 3600 / 60) (x mod 3600 mod 60) = true /\
  x / 3600 * 3600 + x mod 3600 / 60 * 60 + x mod 3600 mod 60 = x.
Proof.
  intros Hx. split.
  - apply time_ok_intro; Z.div_mod_to_equations; lia.
  - Z.div_mod_to_equations; lia.
Qed.

Lemma add_cases (t : datetime) (d : timedelta) :
  valid t -> 0 <= td_seconds d < 86400 ->
  match add t d with
  | Ok t' =>
    valid t' /\
    to_seconds t' = to_seconds t + td_days d * 86400 + td_seconds d
  | Raise e =>
    e = OverflowError /\
    (to_seconds t + td_days d * 86400 + td_seconds d < 86400 \/
     MAX_SECONDS < to_seconds t + td_days d * 86400 + td_seconds d)
  end.
Proof.
  intros [Vd Vt] Hs.
  pose proof (ymd2ord_bounds _ _ _ Vd) as Ho. unfold MAXORDINAL in Ho.
  apply time_ok_elim in Vt.
  unfold add, to_seconds, MAX_SECONDS, MAXORDINAL, toordinal in *.
  set (o := ymd2ord (year t) (month t) (day t)) in *.
  set (tod := hour t * 3600 + minute t * 60 + second t).
  assert (Htod : 0 <= tod < 86400) by (unfold tod; lia).
  replace (o * 86400 + hour t * 3600 + minute t * 60 + second t)
    with (o * 86400 + tod) by (unfold tod; lia).
  pose proof (new_timedelta_cases o tod) as C1.
  destruct (new_timedelta o tod) as [self|e].
  2:{ destruct C1 as [_ C1]. rewrite Z.div_small in C1 by lia. lia. }
  destruct C1 as (D1 & S1 & _).
  rewrite Z.div_small in D1 by lia. rewrite Z.mod_small in S1 by lia.
  rewrite D1, S1. replace (o + 0) with o by lia.
  pose proof (new_timedelta_cases (o + td_days d) (tod + td_seconds d)) as C2.
  destruct (new_timedelta (o + td_days d) (tod + td_seconds d)) as [delta|e].
  2:{ destruct C2 as [-> C2]. split; [reflexivity|].
      Z.div_mod_to_equations. lia. }
  destruct C2 as (D2 & S2 & _).
  assert (Hsec : 0 <= td_seconds delta < 86400).
  { rewrite S2. apply Z.mod_pos_bound. lia. }
  assert (Htot : td_days delta * 86400 + td_seconds delta
                 = o * 86400 + tod + td_days d * 86400 + td_seconds d).
  { rewrite D2, S2. Z.div_mod_to_equations. lia. }
  destruct (Z.ltb_spec 0 (td_days delta)) as [Hlo|Hlo]; cbn [andb].
  - destruct (Z.leb_spec (td_days delta) 3652059) as [Hhi|Hhi].
    + pose proof (ord2ymd_correct (td_days delta)) as OC.
      unfold MAXORDINAL in OC. specialize (OC ltac:(lia)).
      destruct (ord2ymd (td_days delta)) as [[y m] dd].
      destruct OC as [OV OE].
      destruct (time_of_day_fields (td_seconds delta) Hsec) as [TV TE].
      split; [split; assumption|]. cbn [year month day hour minute second].
      rewrite OE. lia.
    + split; [reflexivity|]. lia.
  - split; [reflexivity|]. lia.
Qed.

End AdditionFacts.

(** ** The recurrence computation *)

Module RecurrenceFacts.
Import PyDatetime CalendarFacts AdditionFacts.

Lemma to_seconds_lower (t : datetime) : valid t -> 86400 <= to_seconds t.
Proof.
  intros [Vd Vt]. pose proof (ymd2ord_bounds _ _ _ Vd).
  apply time_ok_elim in Vt. unfold to_seconds, toordinal. lia.
Qed.

(** Adding a positive fixed duration, given as the arguments of the
    [timedelta] constructor. *)
Lemma add_fixed (base : datetime) (days secs : Z) :
  valid base -> 1 <= days * 86400 + secs ->
  match (td <-- new_timedelta days secs ;;
         new_time <-- add base td ;; Ok (Some new_time)) with
  | Ok (Some t) =>
    valid t /\ to_seconds t = to_seconds base + (days * 86400 + secs)
  | Ok None => False
  | Raise e =>
    e = OverflowError /\ MAX_SECONDS < to_seconds base + (days * 86400 + secs)
  end.
Proof.
  intros V Hpos. pose proof (to_seconds_lower base V) as Hlo.
  pose proof (new_timedelta_cases days secs) as C.
  destruct (new_timedelta days secs) as [td|e]; cbn [rbind].
  - destruct C as (D & S & _).
    assert (Hs : 0 <= td_seconds td < 86400)
      by (rewrite S; apply Z.mod_pos_bound; lia).
    assert (E : td_days td * 86400 + td_seconds td = days * 86400 + secs)
      by (rewrite D, S; Z.div_mod_to_equations; lia).
    pose proof (add_cases base td V Hs) as A.
    destruct (add base td) as [t|e]; cbn [rbind].
    + destruct A as [Vt Et]. split; [assumption|lia].
    + destruct A as [-> A]. split; [reflexivity|lia].
  - destruct C as [-> C]. split; [reflexivity|].
    unfold MAX_SECONDS, MAXORDINAL. Z.div_mod_to_equations. lia.
Qed.

Lemma unit_seconds_cases (unit : string) (U : Z) :
  unit_seconds unit = Some U ->
  (unit = "minutes"%string /\ U = 60) \/ (unit = "hours"%string /\ U = 3600) \/
  (unit = "days"%string /\ U = 86400) \/ (unit = "weeks"%string /\ U = 604800).
Proof.
  unfold unit_seconds.
  destruct (String.eqb_spec unit "minutes"); [intros [= <-]; auto|].
  destruct (String.eqb_spec unit "hours"); [intros [= <-]; auto|].
  destruct (String.eqb_spec unit "days"); [intros [= <-]; auto|].
  destruct (String.eqb_spec unit "weeks"); [intros [= <-]; auto 6|].
  discriminate.
Qed.

Lemma next_time_fixed (base : datetime) (n : Z) (unit : string) (U : Z) :
  valid base -> 1 <= n -> unit_seconds unit = Some U ->
  match next_time base (Some n) (Some unit) with
  | Ok (Some t) => valid t /\ to_seconds t = to_seconds base + n * U
  | Ok None => False
  | Raise e => e = OverflowError /\ MAX_SECONDS < to_seconds base + n * U
  end.
Proof.
  intros V Hn HU.
  destruct (unit_seconds_cases _ _ HU) as [[-> ->]|[[-> ->]|[[-> ->]|[-> ->]]]];
    unfold next_time; cbn [unit_is String.eqb Ascii.eqb Bool.eqb py_int rbind];
    unfold timedelta_minutes, timedelta_hours, timedelta_days, timedelta_weeks.
  - pose proof (add_fixed base 0 (n * 60) V ltac:(lia)) as A.
    replace (0 * 86400 + n * 60) with (n * 60) in A by lia. exact A.
  - pose proof (add_fixed base 0 (n * 3600) V ltac:(lia)) as A.
    replace (0 * 86400 + n * 3600) with (n * 3600) in A by lia. exact A.
  - pose proof (add_fixed base n 0 V ltac:(lia)) as A.
    replace (n * 86400 + 0) with (n * 86400) in A by lia. exact A.
  - pose proof (add_fixed base (n * 7) 0 V ltac:(lia)) as A.
    replace (n * 7 * 86400 + 0) with (n * 604800) in A by lia. exact A.
Qed.

Lemma next_time_months_unfold (base : datetime) (n : Z) :
  next_time base (Some n) (Some "months"%string) =
  (new_time <-- replace_ym base (year (months_target base n))
                  (month (months_target base n)) ;; Ok (Some new_time)).
Proof.
  unfold next_time, months_target.
  cbn [unit_is String.eqb Ascii.eqb Bool.eqb py_int rbind year month].
  replace (month base + n - 1) with (month base - 1 + n) by lia.
  reflexivity.
Qed.

Lemma months_target_fields (base : datetime) (n : Z) :
  months_target base n =
  mkdt (year (months_target base n)) (month (months_target base n))
    (day base) (hour base) (minute base) (second base).
Proof. reflexivity. Qed.

Lemma months_target_later (base : datetime) (n : Z) :
  valid base -> 1 <= n -> ltb base (months_target base n) = true.
Proof.
  intros [Vd _] Hn. apply date_ok_elim in Vd. destruct Vd as (_ & Hm & _).
  unfold ltb, fields, months_target.
  cbn [year month day hour minute second lex_ltb].
  set (total := month base - 1 + n).
  assert (Ht : 1 <= total) by (unfold total; lia).
  destruct (Z.ltb_spec (year base) (year base + total / 12)) as [|Hy];
    [reflexivity|]. cbn [orb].
  assert (Hq : total / 12 = 0) by (Z.div_mod_to_equations; lia).
  rewrite Hq, Z.add_0_r, Z.eqb_refl. cbn [andb].
  assert (Hr : total mod 12 = total) by (Z.div_mod_to_equations; lia).
  rewrite Hr.
  destruct (Z.ltb_spec (month base) (total + 1)); [reflexivity|].
  unfold total in *. lia.
Qed.

End RecurrenceFacts.

(** ** The engine: loops, frames and invariants *)

Module EngineFacts.

Ltac unfold_ops :=
  unfold put, execute_update_time, execute_complete, commit, close, connect,
    select_due, store_call, emit, set_conn, set_db, set_queue, get, lift,
    ret, raise, bind in *.

Section Loops.

Context {A : Type} (body : A -> M unit).

Lemma for_each_app (l1 l2 : list A) (s : state) :
  for_each (l1 ++ l2) body s =
  match for_each l1 body s with
  | (Ok _, s1) => for_each l2 body s1
  | (Raise e, s1) => (Raise e, s1)
  end.
Proof.
  revert s. induction l1 as [|x l1 IH]; intros s; cbn [for_each app].
  - reflexivity.
  - unfold bind. destruct (body x s) as [[[]|e] s1]; [apply IH|reflexivity].
Qed.

(** A loop that raises stopped at one element: the elements before it ran
    to completion and the elements after it were never started. *)
Lemma for_each_raise (l : list A) (s s' : state) (e : exn) :
  for_each l body s = (Raise e, s') ->
  exists pre x post s1,
    l = pre ++ x :: post /\
    for_each pre body s = (Ok tt, s1) /\
    body x s1 = (Raise e, s').
Proof.
  revert s. induction l as [|x l IH]; intros s; cbn [for_each].
  - unfold ret. discriminate.
  - unfold bind. destruct (body x s) as [[[]|e0] s1] eqn:B.
    + intros H. destruct (IH _ H) as (pre & y & post & s2 & -> & F & R).
      exists (x :: pre), y, post, s2. split; [reflexivity|]. split; [|exact R].
      cbn [for_each]. unfold bind. rewrite B. exact F.
    + intros [= <- <-]. exists [], x, l, s. auto.
Qed.

(** An invariant of the loop body is an invariant of the loop. *)
Lemma for_each_invariant (P : state -> Prop) (l : list A) :
  (forall x s r s', In x l -> P s -> body x s = (r, s') -> P s') ->
  forall s r s', P s -> for_each l body s = (r, s') -> P s'.
Proof.
  induction l as [|x l IH]; intros Hb s r s' Hs; cbn [for_each].
  - unfold ret. intros [= <- <-]. exact Hs.
  - unfold bind. destruct (body x s) as [[[]|e] s1] eqn:B.
    + apply IH; [intros; eapply Hb; eauto; right; assumption|].
      eapply Hb; eauto. left; reflexivity.
    + intros [= <- <-]. eapply Hb; eauto. left; reflexivity.
Qed.

End Loops.

Section Engine.

Variable faults : nat -> bool.

(** *** What one pass of the loop body can do *)

Lemma resolve_trace (r : reminder) (s : state) (res : result unit) (s' : state) :
  resolve faults r s = (res, s') ->
  exists muts, trace s' = trace s ++ EvPut r :: muts /\ body_muts r muts.
Proof.
  unfold resolve, update_recurring_reminder. unfold_ops. cbn.
  destruct (is_recurring r =? 0); cbn.
  - destruct (faults (calls s)); cbn.
    + intros [= <- <-]. exists []. cbn. split; [reflexivity|constructor].
    + destruct (faults (S (calls s))); cbn; intros [= <- <-]; cbn;
        rewrite <- ?app_assoc; cbn; eexists; split; try reflexivity; constructor.
  - destruct (TimeFormat.strptime (remind_time r)) as [dt|e]; cbn.
    2:{ intros [= <- <-]. exists []. split; [reflexivity|constructor]. }
    destruct (next_time dt _ _) as [[nt|]|e]; cbn.
    + destruct (faults (calls s)); cbn; intros [= <- <-]; cbn;
        rewrite <- ?app_assoc; cbn; eexists; split; try reflexivity; constructor.
    + intros [= <- <-]. exists []. split; [reflexivity|constructor].
    + intros [= <- <-]. exists []. split; [reflexivity|constructor].
Qed.

Lemma resolve_queue (r : reminder) (s : state) (res : result unit) (s' : state) :
  resolve faults r s = (res, s') ->
  reminder_queue s' = reminder_queue s ++ [r].
Proof.
  unfold resolve, update_recurring_reminder. unfold_ops. cbn.
  destruct (is_recurring r =? 0); cbn.
  - destruct (faults (calls s)); cbn; [intros [= <- <-]; reflexivity|].
    destruct (faults (S (calls s))); cbn; intros [= <- <-]; reflexivity.
  - destruct (TimeFormat.strptime (remind_time r)) as [dt|e]; cbn;
      [|intros [= <- <-]; reflexivity].
    destruct (next_time dt _ _) as [[nt|]|e]; cbn;
      try (intros [= <- <-]; reflexivity).
    destruct (faults (calls s)); cbn; intros [= <- <-]; reflexivity.
Qed.

(** A recurring reminder never reaches [commit]: the database file is
    left as it was. *)
Lemma resolve_recurring_db (r : reminder) (s : state) (res : result unit)
    (s' : state) :
  is_recurring r <> 0 ->
  resolve faults r s = (res, s') -> db s' = db s.
Proof.
  intros Hr. unfold resolve, update_recurring_reminder. unfold_ops. cbn.
  destruct (Z.eqb_spec (is_recurring r) 0); [contradiction|]. cbn.
  destruct (TimeFormat.strptime (remind_time r)) as [dt|e]; cbn;
    [|intros [= <- <-]; reflexivity].
  destruct (next_time dt _ _) as [[nt|]|e]; cbn;
    try (intros [= <- <-]; reflexivity).
  destruct (faults (calls s)); cbn; intros [= <- <-]; reflexivity.
Qed.

End Engine.

End EngineFacts.

Module CycleFacts.
Import EngineFacts.

Lemma new_events_app (s s' : state) (es : list event) :
  trace s' = trace s ++ es -> new_events s s' = es.
Proof.
  intros E. unfold new_events. rewrite E.
  rewrite skipn_app, skipn_all, Nat.sub_diag. reflexivity.
Qed.

Lemma cycle_events_tail (l : list reminder) (es tail : list event) :
  cycle_events l es -> Forall inert tail -> cycle_events l (es ++ tail).
Proof.
  intros H Ht. induction H as [l t0 H0|r l muts es Hm H IH].
  - apply ce_stop. apply Forall_app; split; assumption.
  - cbn [app]. rewrite <- app_assoc. apply ce_step; assumption.
Qed.

Lemma body_muts_ids (r : reminder) (muts : list event) :
  body_muts r muts ->
  forall e, In e muts ->
    (mutated_id e = Some (id r) \/ mutated_id e = None) /\
    (forall x, e <> EvPut x).
Proof.
  intros H e He.
  destruct H; cbn in He; intuition (subst; cbn; auto; discriminate).
Qed.

Lemma inert_tail (tail : list event) (e : event) :
  Forall inert tail -> In e tail ->
  mutated_id e = None /\ forall x, e <> EvPut x.
Proof.
  intros H He. rewrite Forall_forall in H. specialize (H e He).
  destruct e; cbn in *; try contradiction; split; try reflexivity;
    intros; discriminate.
Qed.

(** Whatever is put was selected. *)
Lemma cycle_events_put (l : list reminder) (es : list event) (r : reminder) :
  cycle_events l es -> In (EvPut r) es -> In r l.
Proof.
  induction 1 as [l tail Ht|r0 l muts es Hm H IH]; intros Hin.
  - destruct (inert_tail _ _ Ht Hin) as [_ N]. exfalso. eapply N; reflexivity.
  - cbn in Hin. destruct Hin as [[= ->]|Hin]; [left; reflexivity|].
    apply in_app_or in Hin. destruct Hin as [Hin|Hin].
    + destruct (body_muts_ids _ _ Hm _ Hin) as [_ N].
      exfalso. eapply N; reflexivity.
    + right. auto.
Qed.

(** Where an event sits in [a ++ b]. *)
Lemma split_in_app {X} (a b pre post : list X) (e : X) :
  a ++ b = pre ++ e :: post ->
  (exists mid, a = pre ++ e :: mid /\ post = mid ++ b) \/
  (exists mid, pre = a ++ mid /\ b = mid ++ e :: post).
Proof.
  revert pre. induction a as [|x a IH]; intros pre H; cbn [app] in H.
  - right. exists pre. auto.
  - destruct pre as [|p pre]; cbn [app] in H.
    + injection H as -> <-. left. exists a. auto.
    + injection H as -> H. destruct (IH _ H) as [(mid & -> & ->)|(mid & -> & ->)].
      * left. exists mid. auto.
      * right. exists mid. auto.
Qed.

(** A store mutation comes after the [put] of the reminder it addresses. *)
Lemma cycle_events_mutation_after_put (l : list reminder) (es : list event) :
  cycle_events l es ->
  forall pre e post i,
    es = pre ++ e :: post -> mutated_id e = Some i ->
    exists r, In (EvPut r) pre /\ id r = i.
Proof.
  induction 1 as [l tail Ht|r0 l muts es Hm H IH]; intros pre e post i E Hi.
  - assert (In e tail) by (rewrite E; apply in_elt).
    destruct (inert_tail _ _ Ht H) as [N _]. congruence.
  - destruct pre as [|p pre]; cbn [app] in E.
    + injection E as <- _. discriminate.
    + injection E as <- E.
      destruct (split_in_app _ _ _ _ _ E) as [(mid & Em & _)|(mid & -> & Ee)].
      * assert (Hin : In e muts) by (rewrite Em; apply in_elt).
        destruct (body_muts_ids _ _ Hm _ Hin) as [[M|M] _]; [|congruence].
        exists r0. split; [left; reflexivity|congruence].
      * destruct (IH _ _ _ _ Ee Hi) as (r & Hr & <-).
        exists r. split; [|reflexivity]. right. apply in_or_app. auto.
Qed.

(** With distinct ids, no mutation of a reminder precedes its [put]. *)
Lemma cycle_events_put_first (l : list reminder) (es : list event) :
  cycle_events l es -> NoDup (map id l) ->
  forall pre r post,
    es = pre ++ EvPut r :: post ->
    forall e, In e pre -> mutated_id e <> Some (id r).
Proof.
  induction 1 as [l tail Ht|r0 l muts es Hm H IH]; intros Hnd pre r post E e He.
  - assert (Hin : In e tail) by (rewrite E; apply in_or_app; auto).
    destruct (inert_tail _ _ Ht Hin) as [N _]. congruence.
  - cbn [map] in Hnd. apply NoDup_cons_iff in Hnd. destruct Hnd as [Hfresh Hnd].
    destruct pre as [|p pre]; [contradiction|]. cbn [app] in E.
    injection E as <- E.
    destruct (split_in_app _ _ _ _ _ E) as [(mid & Em & _)|(mid & -> & Ee)].
    + assert (Hin : In (EvPut r) muts) by (rewrite Em; apply in_elt).
      destruct (body_muts_ids _ _ Hm _ Hin) as [_ N]. exfalso. eapply N; reflexivity.
    + assert (Hr : In r l).
      { eapply cycle_events_put; eauto. rewrite Ee. apply in_elt. }
      assert (Hne : id r0 <> id r).
      { intros Eq. apply Hfresh. rewrite Eq. apply in_map. exact Hr. }
      destruct He as [<-|He]; [discriminate|].
      apply in_app_or in He. destruct He as [He|He].
      * destruct (body_muts_ids _ _ Hm _ He) as [[M|M] _]; congruence.
      * eapply IH; eauto.
Qed.

Lemma puts_app (a b : list event) : puts (a ++ b) = puts a ++ puts b.
Proof.
  induction a as [|e a IH]; [reflexivity|].
  destruct e; cbn [app puts]; rewrite IH; reflexivity.
Qed.

Lemma puts_body_muts (r : reminder) (muts : list event) :
  body_muts r muts -> puts muts = [].
Proof. destruct 1; reflexivity. Qed.

Section Engine.

Variable faults : nat -> bool.

(** The queue grows by exactly the reminders of the [put] events. *)
Lemma for_each_puts (l : list reminder) (s : state) (res : result unit)
    (s' : state) :
  for_each l (resolve faults) s = (res, s') ->
  exists es, trace s' = trace s ++ es /\
             reminder_queue s' = reminder_queue s ++ puts es.
Proof.
  revert s. induction l as [|r l IH]; intros s; cbn [for_each].
  - unfold ret. intros [= <- <-]. exists []. cbn [puts].
    rewrite !app_nil_r. auto.
  - unfold bind. destruct (resolve faults r s) as [[[]|e] s1] eqn:R;
      destruct (resolve_trace faults _ _ _ _ R) as (muts & T & Hm);
      pose proof (resolve_queue faults _ _ _ _ R) as Q.
    + intros F. destruct (IH _ F) as (es & T' & Q').
      exists (EvPut r :: muts ++ es). split.
      * rewrite T', T, <- app_assoc. reflexivity.
      * cbn [puts]. rewrite puts_app, (puts_body_muts _ _ Hm), Q', Q,
          <- app_assoc. reflexivity.
    + intros [= <- <-]. exists (EvPut r :: muts). split; [exact T|].
      cbn [puts]. rewrite (puts_body_muts _ _ Hm). exact Q.
Qed.

Lemma for_each_events (l : list reminder) (s : state) (res : result unit)
    (s' : state) :
  for_each l (resolve faults) s = (res, s') ->
  exists es, trace s' = trace s ++ es /\ cycle_events l es.
Proof.
  revert s. induction l as [|r l IH]; intros s; cbn [for_each].
  - unfold ret. intros [= <- <-]. exists []. rewrite app_nil_r.
    split; [reflexivity|]. apply ce_stop. constructor.
  - unfold bind. destruct (resolve faults r s) as [[[]|e] s1] eqn:R;
      destruct (resolve_trace faults _ _ _ _ R) as (muts & T & Hm).
    + intros F. destruct (IH _ F) as (es & T' & He).
      exists (EvPut r :: muts ++ es). split.
      * rewrite T', T, <- app_assoc. reflexivity.
      * apply ce_step; assumption.
    + intros [= <- <-]. exists (EvPut r :: muts ++ []). split.
      * rewrite app_nil_r. exact T.
      * apply ce_step; [assumption|]. apply ce_stop. constructor.
Qed.

Lemma for_each_queue (l : list reminder) (s s' : state) :
  for_each l (resolve faults) s = (Ok tt, s') ->
  reminder_queue s' = reminder_queue s ++ l.
Proof.
  revert s. induction l as [|r l IH]; intros s; cbn [for_each].
  - unfold ret. intros [= <-]. rewrite app_nil_r. reflexivity.
  - unfold bind. destruct (resolve faults r s) as [[[]|e] s1] eqn:R;
      [|discriminate].
    intros F. rewrite (IH _ F), (resolve_queue faults _ _ _ _ R), <- app_assoc.
    reflexivity.
Qed.

(** The cycle, case by case. *)
Lemma cycle_body_unfold (now : PyDatetime.datetime) (s : state) :
  cycle_body faults now s =
  if faults (calls s)
  then (Raise OperationalError,
        mkState (db s) (conn s) (reminder_queue s) (S (calls s)) (trace s))
  else if faults (S (calls s))
  then (Raise OperationalError, after_select s)
  else
    match for_each (filter (due (TimeFormat.strftime now)) (db s))
            (resolve faults) (after_select s) with
    | (Ok _, s1) => (Ok tt, after_close s1)
    | (Raise e, s1) => (Raise e, s1)
    end.
Proof.
  unfold cycle_body, after_select, after_close. unfold_ops. cbn.
  destruct (faults (calls s)); cbn; [reflexivity|].
  destruct (faults (S (calls s))); cbn; [reflexivity|].
  destruct (for_each _ _ _) as [[[]|e] s1]; cbn; [|reflexivity].
  rewrite <- app_assoc. reflexivity.
Qed.

Lemma cycle_unfold (now : PyDatetime.datetime) (s : state) :
  check_reminders_cycle faults now s =
  match cycle_body faults now s with
  | (Ok _, s1) => (Ok tt, s1)
  | (Raise e, s1) => (Ok tt, after_handler e s1)
  end.
Proof.
  unfold check_reminders_cycle, try_except, cycle_handler, after_handler.
  destruct (cycle_body faults now s) as [[[]|e] s1]; [reflexivity|].
  unfold_ops. cbn. rewrite <- app_assoc. reflexivity.
Qed.

(** No exception leaves a cycle, so none ends the loop. *)
Lemma cycle_never_raises (now : PyDatetime.datetime) (s : state) :
  fst (check_reminders_cycle faults now s) = Ok tt.
Proof.
  rewrite cycle_unfold. destruct (cycle_body faults now s) as [[[]|e] s1];
    reflexivity.
Qed.

Lemma check_reminders_never_raises (clock : list PyDatetime.datetime)
    (s : state) :
  fst (check_reminders faults clock s) = Ok tt.
Proof.
  revert s. induction clock as [|now clock IH]; intros s; cbn [check_reminders].
  - reflexivity.
  - unfold bind. pose proof (cycle_never_raises now s) as C.
    destruct (check_reminders_cycle faults now s) as [[[]|e] s1];
      cbn in C; [apply IH|discriminate].
Qed.

Lemma check_reminders_step (now : PyDatetime.datetime)
    (clock : list PyDatetime.datetime) (s s1 : state) :
  check_reminders_cycle faults now s = (Ok tt, s1) ->
  check_reminders faults (now :: clock) s = check_reminders faults clock s1.
Proof.
  intros C. cbn [check_reminders]. unfold bind. rewrite C. reflexivity.
Qed.

(** The events of one cycle have the shape [cycle_events] over the
    reminders that were selected. *)
Lemma cycle_trace (now : PyDatetime.datetime) (s : state)
    (res : result unit) (s' : state) :
  check_reminders_cycle faults now s = (res, s') ->
  cycle_events (filter (due (TimeFormat.strftime now)) (db s))
    (new_events s s').
Proof.
  rewrite cycle_unfold, cycle_body_unfold.
  destruct (faults (calls s)).
  { intros [= <- <-]. erewrite new_events_app by reflexivity.
    apply ce_stop. repeat constructor. }
  destruct (faults (S (calls s))).
  { intros [= <- <-]. erewrite new_events_app by reflexivity.
    apply ce_stop. repeat constructor. }
  destruct (for_each _ _ _) as [[[]|e] s1] eqn:F;
    destruct (for_each_events _ _ _ _ F) as (es & T & He);
    intros [= <- <-].
  - erewrite new_events_app
      by (cbn [trace after_close after_select] in *; rewrite T, <- app_assoc;
          reflexivity).
    apply cycle_events_tail; [assumption|repeat constructor].
  - erewrite new_events_app
      by (cbn [trace after_handler after_select] in *; rewrite T, <- app_assoc;
          reflexivity).
    apply cycle_events_tail; [assumption|repeat constructor].
Qed.

Lemma cycle_queue (now : PyDatetime.datetime) (s : state)
    (res : result unit) (s' : state) :
  check_reminders_cycle faults now s = (res, s') ->
  reminder_queue s' = reminder_queue s ++ puts (new_events s s').
Proof.
  rewrite cycle_unfold, cycle_body_unfold.
  destruct (faults (calls s)).
  { intros [= <- <-]. erewrite new_events_app by reflexivity.
    cbn. rewrite app_nil_r. reflexivity. }
  destruct (faults (S (calls s))).
  { intros [= <- <-]. erewrite new_events_app by reflexivity.
    cbn. rewrite app_nil_r. reflexivity. }
  destruct (for_each _ _ _) as [[[]|e] s1] eqn:F;
    destruct (for_each_puts _ _ _ _ F) as (es & T & Q);
    intros [= <- <-].
  - erewrite new_events_app
      by (cbn [trace after_close after_select] in *; rewrite T, <- app_assoc;
          reflexivity).
    cbn [reminder_queue after_close]. rewrite puts_app, Q. cbn.
    rewrite app_nil_r. reflexivity.
  - erewrite new_events_app
      by (cbn [trace after_handler after_select] in *; rewrite T, <- app_assoc;
          reflexivity).
    cbn [reminder_queue after_handler]. rewrite puts_app, Q. cbn.
    rewrite app_nil_r. reflexivity.
Qed.

End Engine.

End CycleFacts.

(** ** Rows of the table, looked up by id *)

Module StoreFacts.
Import EngineFacts CycleFacts.

Lemma rows_with_update_other (i j : Z) (f : reminder -> reminder) (t : table) :
  (forall r, id (f r) = id r) -> i <> j ->
  rows_with i (update_where_id j f t) = rows_with i t.
Proof.
  intros Hf Hij. unfold rows_with, update_where_id.
  induction t as [|r t IH]; cbn [map filter]; [reflexivity|].
  destruct (Z.eqb_spec (id r) j) as [E|E].
  - rewrite Hf. destruct (Z.eqb_spec (id r) i); [lia|]. exact IH.
  - destruct (Z.eqb_spec (id r) i); rewrite IH; reflexivity.
Qed.

Lemma rows_with_update_same (i : Z) (f : reminder -> reminder) (t : table) :
  (forall r, id (f r) = id r) ->
  rows_with i (update_where_id i f t) = map f (rows_with i t).
Proof.
  intros Hf. unfold rows_with, update_where_id.
  induction t as [|r t IH]; cbn [map filter]; [reflexivity|].
  destruct (Z.eqb_spec (id r) i) as [E|E].
  - rewrite Hf. destruct (Z.eqb_spec (id r) i); [|contradiction].
    cbn [map]. rewrite IH. reflexivity.
  - destruct (Z.eqb_spec (id r) i); [contradiction|]. exact IH.
Qed.

Lemma rows_with_absent (i : Z) (t : table) :
  ~ In i (map id t) -> rows_with i t = [].
Proof.
  unfold rows_with. induction t as [|r t IH]; cbn [map filter In]; intros H;
    [reflexivity|].
  destruct (Z.eqb_spec (id r) i); [exfalso; auto|]. apply IH. auto.
Qed.

(** With [id] a key, the rows of a given id are that one row. *)
Lemma rows_with_unique (r : reminder) (t : table) :
  NoDup (map id t) -> In r t -> rows_with (id r) t = [r].
Proof.
  induction t as [|x t IH]; cbn [map In]; intros Hnd Hin; [contradiction|].
  apply NoDup_cons_iff in Hnd. destruct Hnd as [Hx Hnd].
  unfold rows_with. cbn [filter]. fold (rows_with (id r) t).
  destruct Hin as [->|Hin].
  - rewrite Z.eqb_refl, rows_with_absent by assumption. reflexivity.
  - destruct (Z.eqb_spec (id x) (id r)) as [E|E].
    + exfalso. apply Hx. rewrite E. apply in_map. assumption.
    + apply IH; assumption.
Qed.

(** A table in ascending id has distinct ids. *)
Lemma id_ordered_NoDup (t : table) : id_ordered t -> NoDup (map id t).
Proof.
  induction t as [|r t IH]; cbn [id_ordered map]; [constructor|].
  intros [Hr Ht]. constructor; [|auto].
  intros Hin. apply in_map_iff in Hin. destruct Hin as (x & E & Hx).
  specialize (Hr x Hx). lia.
Qed.

Lemma NoDup_map_filter {X Y} (f : X -> Y) (p : X -> bool) (l : list X) :
  NoDup (map f l) -> NoDup (map f (filter p l)).
Proof.
  induction l as [|x l IH]; cbn [map filter]; intros H; [constructor|].
  apply NoDup_cons_iff in H. destruct H as [Hx H].
  destruct (p x); [|auto]. cbn [map]. constructor; [|auto].
  intros Hin. apply Hx. apply in_map_iff in Hin.
  destruct Hin as (y & <- & Hy). apply filter_In in Hy.
  apply in_map. tauto.
Qed.

Section Engine.

Variable faults : nat -> bool.

#[local] Arguments update_where_id : simpl never.
#[local] Arguments rows_with : simpl never.

(** A pass for another reminder leaves the rows of id [i] alone, in the
    connection and in the file, once the two agree on them. *)
Lemma resolve_other (i : Z) (X : table) (r : reminder) (s : state)
    (res : result unit) (s' : state) :
  id r <> i ->
  rows_with i (conn s) = X /\ rows_with i (db s) = X ->
  resolve faults r s = (res, s') ->
  rows_with i (conn s') = X /\ rows_with i (db s') = X.
Proof.
  intros Hne [Hc Hd].
  unfold resolve, update_recurring_reminder. unfold_ops. cbn.
  destruct (is_recurring r =? 0); cbn.
  - destruct (faults (calls s)); cbn; [intros [= <- <-]; cbn; auto|].
    destruct (faults (S (calls s))); cbn; intros [= <- <-]; cbn;
      rewrite rows_with_update_other by (auto; reflexivity); auto.
  - destruct (TimeFormat.strptime (remind_time r)) as [dt|e]; cbn;
      [|intros [= <- <-]; cbn; auto].
    destruct (next_time dt _ _) as [[nt|]|e]; cbn;
      try (intros [= <- <-]; cbn; auto).
    destruct (faults (calls s)); cbn; intros [= <- <-]; cbn; auto.
    rewrite rows_with_update_other by (auto; reflexivity); auto.
Qed.

Lemma for_each_other (i : Z) (X : table) (l : list reminder) (s : state)
    (res : result unit) (s' : state) :
  (forall r, In r l -> id r <> i) ->
  rows_with i (conn s) = X /\ rows_with i (db s) = X ->
  for_each l (resolve faults) s = (res, s') ->
  rows_with i (conn s') = X /\ rows_with i (db s') = X.
Proof.
  intros Hl Hs F.
  eapply (for_each_invariant (resolve faults)
            (fun s => rows_with i (conn s) = X /\ rows_with i (db s) = X));
    try eassumption.
  intros x s0 r0 s0' Hx P R. eapply resolve_other; eauto.
Qed.

(** A one-shot reminder whose pass completes is completed in the file. *)
Lemma resolve_one_shot (r : reminder) (s s' : state) :
  is_recurring r = 0 ->
  rows_with (id r) (conn s) = [r] ->
  resolve faults r s = (Ok tt, s') ->
  rows_with (id r) (conn s') = [set_is_completed 1 r] /\
  rows_with (id r) (db s') = [set_is_completed 1 r].
Proof.
  intros Hr Hc.
  unfold resolve, update_recurring_reminder. unfold_ops. cbn.
  rewrite Hr. cbn.
  destruct (faults (calls s)); cbn; [discriminate|].
  destruct (faults (S (calls s))); cbn; [discriminate|].
  intros [= <-]. cbn.
  rewrite rows_with_update_same, Hc by reflexivity. auto.
Qed.

Lemma for_each_one_shot (r : reminder) (l : list reminder) (s s' : state) :
  NoDup (map id l) -> In r l -> is_recurring r = 0 ->
  rows_with (id r) (conn s) = [r] /\ rows_with (id r) (db s) = [r] ->
  for_each l (resolve faults) s = (Ok tt, s') ->
  rows_with (id r) (db s') = [set_is_completed 1 r].
Proof.
  revert s. induction l as [|x l IH]; intros s Hnd Hin Hr Hs; [contradiction|].
  cbn [map] in Hnd. apply NoDup_cons_iff in Hnd. destruct Hnd as [Hx Hnd].
  cbn [for_each]. unfold bind.
  destruct (resolve faults x s) as [[[]|e] s1] eqn:R; [|discriminate].
  intros F. destruct Hin as [->|Hin].
  - destruct Hs as [Hc _].
    pose proof (resolve_one_shot _ _ _ Hr Hc R) as Hs1.
    eapply for_each_other; [|exact Hs1|exact F].
    intros y Hy E. apply Hx. rewrite <- E. apply in_map. assumption.
  - apply (IH s1); try assumption.
    eapply resolve_other; [|exact Hs|exact R].
    intros E. apply Hx. rewrite E. apply in_map. assumption.
Qed.

(** Only a one-shot reminder leads to [commit]. *)
Lemma for_each_recurring_db (l : list reminder) (s : state)
    (res : result unit) (s' : state) :
  (forall r, In r l -> is_recurring r <> 0) ->
  for_each l (resolve faults) s = (res, s') -> db s' = db s.
Proof.
  intros Hl F.
  eapply (for_each_invariant (resolve faults) (fun s0 => db s0 = db s));
    try eassumption; [|reflexivity].
  intros x s0 r0 s0' Hx P R. rewrite <- P.
  eapply resolve_recurring_db; eauto.
Qed.

End Engine.

End StoreFacts.

(** ** The specification's statements about the recurrence computation *)

Module RecurrenceClaims.
Import PyDatetime CalendarFacts AdditionFacts RecurrenceFacts.

Lemma replace_ym_ok (t : datetime) (y m : Z) (t' : datetime) :
  replace_ym t y m = Ok t' ->
  t' = mkdt y m (day t) (hour t) (minute t) (second t) /\
  date_ok y m (day t) = true /\ time_ok (hour t) (minute t) (second t) = true.
Proof.
  unfold replace_ym, new_datetime.
  destruct (fits_c_int y && fits_c_int m); [|discriminate].
  destruct (date_ok y m (day t)); [|discriminate].
  destruct (time_ok (hour t) (minute t) (second t)); [|discriminate].
  intros [= <-]. auto.
Qed.

Lemma not_c_int_not_in (lo hi z : Z) :
  -2147483648 <= lo -> hi <= 2147483647 -> fits_c_int z = false ->
  (lo <=? z) && (z <=? hi) = false.
Proof.
  intros Hlo Hhi F. unfold fits_c_int in F.
  destruct (Z.leb_spec lo z), (Z.leb_spec z hi); cbn [andb]; try reflexivity.
  destruct (Z.leb_spec (-2147483648) z), (Z.leb_spec z 2147483647);
    cbn [andb] in F; try discriminate; lia.
Qed.

Lemma replace_ym_raise (t : datetime) (y m : Z) (e : exn) :
  replace_ym t y m = Raise e ->
  date_ok y m (day t) = false \/ time_ok (hour t) (minute t) (second t) = false.
Proof.
  unfold replace_ym, new_datetime.
  destruct (fits_c_int y) eqn:Fy; cbn [andb].
  - destruct (fits_c_int m) eqn:Fm.
    + destruct (date_ok y m (day t)); [|auto].
      destruct (time_ok (hour t) (minute t) (second t)); [discriminate|auto].
    + intros _. left. unfold date_ok.
      rewrite <- !andb_assoc.
      rewrite (andb_assoc (1 <=? m)), (not_c_int_not_in 1 12 m) by (lia || assumption).
      cbn [andb]. rewrite !andb_false_r. reflexivity.
  - intros _. left. unfold date_ok, MINYEAR, MAXYEAR.
    rewrite <- !andb_assoc.
    rewrite (andb_assoc (1 <=? y)), (not_c_int_not_in 1 9999 y) by (lia || assumption).
    reflexivity.
Qed.



(** C6.  For the unit "months" the computation either returns the base
    time with its month advanced by the rule of the specification (month
    counted from 0 plus the interval, taken modulo 12, the quotient carried
    into the year) and day, hour, minute and second unchanged, or raises;
    it raises only when that target is not a valid datetime. *)
Theorem months_follow_the_rule (base : datetime) (n : Z) :
  match next_time base (Some n) (Some "months"%string) with
  | Ok (Some t) => t = months_target base n
  | Ok None => False
  | Raise _ => ~ valid (months_target base n)
  end.
Proof.
  rewrite next_time_months_unfold.
  destruct (replace_ym base _ _) as [t|e] eqn:R; cbn [rbind].
  - apply replace_ym_ok in R. destruct R as [-> _].
    symmetry. apply months_target_fields.
  - apply replace_ym_raise in R. intros [Vd Vt].
    unfold months_target in *. cbn [year month day hour minute second] in *.
    destruct R as [R|R]; congruence.
Qed.

(** C7.  For a valid base time, an interval [n] of at least 1 and a unit
    of fixed duration (minutes, hours, days, weeks), the computed next time
    is a valid datetime lying exactly [n] units after the base; the only
    other outcome is Python's [OverflowError], raised exactly when that
    instant is past the last representable second. *)
Theorem fixed_units_add_exactly (base : datetime) (n : Z) (unit : string)
    (U : Z) :
  valid base -> 1 <= n -> unit_seconds unit = Some U ->
  match next_time base (Some n) (Some unit) with
  | Ok (Some t) => valid t /\ to_seconds t = to_seconds base + n * U
  | Ok None => False
  | Raise e => e = OverflowError /\ MAX_SECONDS < to_seconds base + n * U
  end.
Proof. exact (next_time_fixed base n unit U). Qed.

Lemma fixed_units_add_exactly_witness :
  valid (mkdt 2024 2 29 23 59 59) /\
  to_seconds (mkdt 2024 2 29 23 59 59)
  = to_seconds (mkdt 2024 2 28 23 59 59) + 1 * 86400.
Proof.
  exact (fixed_units_add_exactly (mkdt 2024 2 28 23 59 59) 1 "days" 86400
           (conj eq_refl eq_refl) ltac:(lia) eq_refl).
Defined.

(** C10, as stated, fails: day 15 exists in January, yet one month after
    15 December 9999 the computation raises [ValueError], because the
    target year 10000 is outside the range of [datetime]. *)
Lemma months_day_exists_yet_raises :
  let base := mkdt 9999 12 15 0 0 0 in
  let target := months_target base 1 in
  valid base /\
  1 <= day base <= days_in_month (year target) (month target) /\
  next_time base (Some 1) (Some "months"%string) = Raise ValueError.
Proof.
  cbv zeta. split; [split; reflexivity|]. split; [|reflexivity].
  change (days_in_month _ _) with 31. cbn [day]. lia.
Qed.

(** C10, amended.  For the unit "months", a valid base time, an interval
    of at least 1 and a target year of at most 9999: when the day of the
    base does not exist in the target month the computation raises
    [ValueError] (no clamping), and when it exists the computation returns
    the target. *)
Theorem months_day_must_exist (base : datetime) (n : Z) :
  valid base -> 1 <= n -> year (months_target base n) <= 9999 ->
  next_time base (Some n) (Some "months"%string) =
  if day base <=? days_in_month (year (months_target base n))
                    (month (months_target base n))
  then Ok (Some (months_target base n))
  else Raise ValueError.
Proof.
  intros [Vd Vt] Hn Hy. rewrite next_time_months_unfold.
  apply date_ok_elim in Vd. destruct Vd as (Hy0 & Hm0 & Hd0).
  set (y := year (months_target base n)) in *.
  set (m := month (months_target base n)) in *.
  assert (Hm : 1 <= m <= 12).
  { unfold m, months_target. cbn [month]. Z.div_mod_to_equations. lia. }
  assert (Hy1 : 1 <= y).
  { unfold y, months_target. cbn [year]. Z.div_mod_to_equations. lia. }
  unfold replace_ym, new_datetime, fits_c_int.
  destruct (Z.leb_spec (-2147483648) y), (Z.leb_spec y 2147483647),
    (Z.leb_spec (-2147483648) m), (Z.leb_spec m 2147483647); try lia.
  cbn [andb]. rewrite Vt.
  unfold date_ok, MINYEAR, MAXYEAR.
  destruct (Z.leb_spec 1 y), (Z.leb_spec y 9999), (Z.leb_spec 1 m),
    (Z.leb_spec m 12), (Z.leb_spec 1 (day base)); try lia.
  cbn [andb].
  destruct (day base <=? days_in_month y m); reflexivity.
Qed.

Lemma months_day_must_exist_witness :
  next_time (mkdt 2024 1 31 9 0 0) (Some 1) (Some "months"%string)
  = Raise ValueError.
Proof.
  exact (months_day_must_exist (mkdt 2024 1 31 9 0 0) 1
           (conj eq_refl eq_refl) ltac:(lia) ltac:(vm_compute; discriminate)).
Defined.

End RecurrenceClaims.

(** ** The specification's statements about the scheduler and the consumer *)

Module EngineClaims.
Import EngineFacts CycleFacts StoreFacts.

Section Engine.

Variable faults : nat -> bool.

(** A cycle in which no one-shot reminder is due never reaches [commit]:
    whatever it wrote through its connection is rolled back. *)
Lemma cycle_without_one_shot_keeps_db (now : PyDatetime.datetime)
    (s : state) (res : result unit) (s' : state) :
  (forall r, In r (db s) -> due (TimeFormat.strftime now) r = true ->
             is_recurring r <> 0) ->
  check_reminders_cycle faults now s = (res, s') -> db s' = db s.
Proof.
  intros Hrec. rewrite cycle_unfold, cycle_body_unfold.
  destruct (faults (calls s)); [intros [= <- <-]; reflexivity|].
  destruct (faults (S (calls s))); [intros [= <- <-]; reflexivity|].
  destruct (for_each _ _ _) as [[[]|e] s1] eqn:F; intros [= <- <-];
    cbn [db after_close after_handler];
    (eapply for_each_recurring_db in F;
     [exact F | intros r Hr; apply filter_In in Hr; apply Hrec; tauto]).
Qed.

(** A cycle whose store operations all succeed and whose due reminders
    are all one-shot runs its [try] block to the end. *)
Lemma cycle_body_completes (now : PyDatetime.datetime) (s : state) :
  (forall k, faults k = false) ->
  (forall r, In r (db s) -> due (TimeFormat.strftime now) r = true ->
             is_recurring r = 0) ->
  exists s', cycle_body faults now s = (Ok tt, s').
Proof.
  intros Hf Hone. rewrite cycle_body_unfold, !Hf.
  assert (L : forall l s0, (forall r, In r l -> is_recurring r = 0) ->
            exists s1, for_each l (resolve faults) s0 = (Ok tt, s1)).
  { induction l as [|r l IH]; intros s0 Hl; cbn [for_each].
    - eexists; reflexivity.
    - unfold bind at 1.
      assert (R : exists s1, resolve faults r s0 = (Ok tt, s1)).
      { unfold resolve. unfold_ops. cbn.
        rewrite (Hl r (or_introl eq_refl)). cbn. rewrite !Hf. cbn.
        eexists; reflexivity. }
      destruct R as [s1 ->]. apply IH. intros; apply Hl; right; assumption. }
  destruct (L (filter (due (TimeFormat.strftime now)) (db s)) (after_select s))
    as [s1 ->].
  - intros r Hr. apply filter_In in Hr. apply Hone; tauto.
  - eexists; reflexivity.
Qed.

(** C2, amended.  When resolving one due reminder raises, after the
    reminders before it were resolved, the exception is caught by the
    handler of the whole cycle: the cycle ends there, with the reminders
    after the failing one neither queued nor resolved, the error printed
    and a wait of 10 seconds; and the loop goes on with the next cycle. *)
Theorem failure_abandons_rest_of_cycle (now : PyDatetime.datetime)
    (s s1 s2 : state) (pre post : list reminder) (r : reminder) (e : exn) :
  faults (calls s) = false -> faults (S (calls s)) = false ->
  filter (due (TimeFormat.strftime now)) (db s) = pre ++ r :: post ->
  for_each pre (resolve faults) (after_select s) = (Ok tt, s1) ->
  resolve faults r s1 = (Raise e, s2) ->
  check_reminders_cycle faults now s = (Ok tt, after_handler e s2) /\
  reminder_queue (after_handler e s2) = reminder_queue s ++ pre ++ [r] /\
  new_events s2 (after_handler e s2) = [EvPrint e; EvSleep 10] /\
  forall clock,
    check_reminders faults (now :: clock) s =
    check_reminders faults clock (after_handler e s2).
Proof.
  intros F0 F1 Hsel Hpre Hr.
  assert (C : check_reminders_cycle faults now s = (Ok tt, after_handler e s2)).
  { rewrite cycle_unfold, cycle_body_unfold, F0, F1, Hsel, for_each_app, Hpre.
    cbn [for_each]. unfold bind. rewrite Hr. reflexivity. }
  split; [exact C|]. split; [|split].
  - cbn [reminder_queue after_handler].
    rewrite (resolve_queue faults _ _ _ _ Hr), (for_each_queue faults _ _ _ Hpre).
    cbn [reminder_queue after_select]. rewrite app_assoc. reflexivity.
  - apply new_events_app. reflexivity.
  - intros clock. apply check_reminders_step. exact C.
Qed.

(** C3, amended.  A recurring reminder whose unit is not one of the
    supported five is passed over in silence: its pass through the loop
    body only queues it; no statement is sent to the store, nothing is
    printed, the row is not completed and no exception is raised, so the
    loop goes on to the next reminder. *)
Theorem unknown_unit_silently_skipped (r : reminder) (s : state)
    (dt : PyDatetime.datetime) :
  is_recurring r <> 0 ->
  TimeFormat.strptime (remind_time r) = Ok dt ->
  (forall u, recurring_unit r = Some u -> ~ In u supported_units) ->
  next_time dt (recurring_interval r) (recurring_unit r) = Ok None /\
  resolve faults r s =
  (Ok tt, mkState (db s) (conn s) (reminder_queue s ++ [r]) (calls s)
            (trace s ++ [EvPut r])).
Proof.
  intros Hr Hp Hu.
  assert (N : next_time dt (recurring_interval r) (recurring_unit r) = Ok None).
  { unfold next_time, unit_is.
    destruct (recurring_unit r) as [u|]; [|reflexivity].
    specialize (Hu u eq_refl). cbn [supported_units In] in Hu.
    repeat match goal with
           | |- context [String.eqb u ?x] =>
             destruct (String.eqb_spec u x); [exfalso; apply Hu; subst; tauto|]
           end.
    reflexivity. }
  split; [exact N|].
  unfold resolve, update_recurring_reminder. unfold_ops. cbn.
  destruct (Z.eqb_spec (is_recurring r) 0); [contradiction|]. cbn.
  rewrite Hp. cbn. rewrite N. reflexivity.
Qed.

Lemma rows_with_none (i : Z) (l : list reminder) :
  (forall x, In x l -> id x <> i) -> rows_with i l = [].
Proof.
  intros H. apply rows_with_absent. intros Hin.
  apply in_map_iff in Hin. destruct Hin as (x & E & Hx). exact (H x Hx E).
Qed.

Lemma rows_with_app (i : Z) (a b : list reminder) :
  rows_with i (a ++ b) = rows_with i a ++ rows_with i b.
Proof. unfold rows_with. apply filter_app. Qed.

(** Whatever the outcome of the loop, what it queued are reminders of the
    list it ran over. *)
Lemma for_each_queued (l : list reminder) (s : state) (res : result unit)
    (s' : state) :
  for_each l (resolve faults) s = (res, s') ->
  exists d, reminder_queue s' = reminder_queue s ++ d /\
            forall x, In x d -> In x l.
Proof.
  revert s. induction l as [|r l IH]; intros s; cbn [for_each].
  - unfold ret. intros [= <- <-]. exists []. rewrite app_nil_r.
    split; [reflexivity|]. intros x [].
  - unfold bind. destruct (resolve faults r s) as [[[]|e] s1] eqn:R;
      pose proof (resolve_queue faults _ _ _ _ R) as Q.
    + intros F. destruct (IH _ F) as (d & Qd & Hd).
      exists (r :: d). split.
      * rewrite Qd, Q, <- app_assoc. reflexivity.
      * intros x [<-|Hx]; [left; reflexivity|right; auto].
    + intros [= <- <-]. exists [r]. split; [exact Q|].
      intros x [<-|[]]. left. reflexivity.
Qed.

(** C5, amended.  A due one-shot reminder is queued exactly once, as the
    row it was, and the database file then holds it with
    [is_completed = 1], which no later [SELECT] of due reminders matches,
    provided no exception is raised in the cycle before the reminder has
    been resolved: the connection and the [SELECT] succeed, the due
    reminders before it are resolved without an exception, and its own
    pass through the loop body succeeds.  What happens to the reminders
    after it does not matter. *)
Theorem one_shot_delivered_once_resolved (now : PyDatetime.datetime)
    (s s1 s2 : state) (res : result unit) (s' : state)
    (pre post : list reminder) (r : reminder) :
  id_ordered (db s) ->
  faults (calls s) = false -> faults (S (calls s)) = false ->
  filter (due (TimeFormat.strftime now)) (db s) = pre ++ r :: post ->
  is_recurring r = 0 ->
  for_each pre (resolve faults) (after_select s) = (Ok tt, s1) ->
  resolve faults r s1 = (Ok tt, s2) ->
  check_reminders_cycle faults now s = (res, s') ->
  (exists delivered,
     reminder_queue s' = reminder_queue s ++ delivered /\
     rows_with (id r) delivered = [r]) /\
  rows_with (id r) (db s') = [set_is_completed 1 r] /\
  (forall later, due later (set_is_completed 1 r) = false).
Proof.
  intros Hord F0 F1 Hsel Hone Hpre Hr C.
  pose proof (id_ordered_NoDup _ Hord) as Hnd.
  assert (Hndl : NoDup (map id (pre ++ r :: post))).
  { rewrite <- Hsel. apply NoDup_map_filter. exact Hnd. }
  assert (Hin : In r (db s)).
  { assert (H : In r (filter (due (TimeFormat.strftime now)) (db s)))
      by (rewrite Hsel; apply in_elt).
    apply filter_In in H. tauto. }
  rewrite map_app in Hndl. cbn [map] in Hndl.
  assert (Hpre_ids : forall x, In x pre -> id x <> id r).
  { intros x Hx E. apply NoDup_remove_2 in Hndl. apply Hndl.
    apply in_or_app. left. rewrite <- E. apply in_map. exact Hx. }
  assert (Hpost_ids : forall x, In x post -> id x <> id r).
  { intros x Hx E. apply NoDup_remove_2 in Hndl. apply Hndl.
    apply in_or_app. right. rewrite <- E. apply in_map. exact Hx. }
  pose proof (rows_with_unique r (db s) Hnd Hin) as U.
  assert (I1 : rows_with (id r) (conn s1) = [r] /\
               rows_with (id r) (db s1) = [r]).
  { eapply for_each_other; [exact Hpre_ids| |exact Hpre].
    cbn [conn db after_select]. auto. }
  pose proof (resolve_one_shot faults r s1 s2 Hone (proj1 I1) Hr) as I2.
  rewrite cycle_unfold, cycle_body_unfold, F0, F1, Hsel, for_each_app, Hpre
    in C.
  cbn [for_each] in C. unfold bind in C. rewrite Hr in C.
  destruct (for_each post (resolve faults) s2) as [rp s3] eqn:Fpost.
  pose proof (for_each_other faults (id r) _ post s2 rp s3 Hpost_ids I2 Fpost)
    as [_ I3].
  destruct (for_each_queued post s2 rp s3 Fpost) as (d & Qd & Hd).
  pose proof (for_each_queue faults _ _ _ Hpre) as Q1.
  pose proof (resolve_queue faults _ _ _ _ Hr) as Q2.
  cbn [reminder_queue after_select] in Q1.
  assert (Q3 : reminder_queue s3 = reminder_queue s ++ (pre ++ r :: d)).
  { rewrite Qd, Q2, Q1, <- !app_assoc. reflexivity. }
  assert (R3 : rows_with (id r) (pre ++ r :: d) = [r]).
  { rewrite rows_with_app, (rows_with_none _ pre Hpre_ids).
    change (r :: d) with ([r] ++ d). rewrite rows_with_app.
    rewrite (rows_with_none _ d) by (intros x Hx; apply Hpost_ids; auto).
    unfold rows_with. cbn [filter]. rewrite Z.eqb_refl. reflexivity. }
  assert (E : db s' = db s3 /\ reminder_queue s' = reminder_queue s3).
  { destruct rp as [[]|e]; injection C as _ <-; split; reflexivity. }
  destruct E as [Ed Eq]. rewrite Ed, Eq.
  split; [exists (pre ++ r :: d); auto|]. split; [exact I3|].
  intros later. reflexivity.
Qed.

(** C8.  In every cycle over a table whose ids are distinct, the queue
    grows by exactly the rows of the [put] events; a reminder that is put
    on the queue is a whole row of the table as it stood when the cycle
    began, it was due, and no statement changing that reminder was sent to
    the store before the [put]; and every statement that changes a
    reminder comes after the [put] of that reminder. *)
Theorem snapshot_precedes_mutation (now : PyDatetime.datetime) (s : state)
    (res : result unit) (s' : state) :
  NoDup (map id (db s)) ->
  check_reminders_cycle faults now s = (res, s') ->
  reminder_queue s' = reminder_queue s ++ puts (new_events s s') /\
  (forall pre r post,
     new_events s s' = pre ++ EvPut r :: post ->
     In r (db s) /\ due (TimeFormat.strftime now) r = true /\
     forall e, In e pre -> mutated_id e <> Some (id r)) /\
  (forall pre e post i,
     new_events s s' = pre ++ e :: post -> mutated_id e = Some i ->
     exists r, In (EvPut r) pre /\ id r = i).
Proof.
  intros Hnd C. pose proof (cycle_trace faults now s res s' C) as T.
  split; [exact (cycle_queue faults now s res s' C)|]. split.
  - intros pre r post E.
    assert (Hr : In r (filter (due (TimeFormat.strftime now)) (db s))).
    { eapply cycle_events_put; [exact T|]. rewrite E. apply in_elt. }
    apply filter_In in Hr. destruct Hr as [Hr Hd].
    split; [exact Hr|]. split; [exact Hd|].
    eapply cycle_events_put_first; [exact T| |exact E].
    apply NoDup_map_filter. exact Hnd.
  - intros pre e post i E Hi.
    eapply cycle_events_mutation_after_put; eauto.
Qed.

(** C9.  A tick of the consumer that finds the queue empty does nothing:
    it returns normally and leaves the state as it was, so no reminder is
    shown, the list is not refreshed and the store is not touched. *)
Theorem empty_queue_tick_is_noop (s : state) :
  reminder_queue s = [] ->
  process_reminder_queue faults s = (Ok tt, s) /\
  new_events s (snd (process_reminder_queue faults s)) = [].
Proof.
  intros Hq.
  assert (E : process_reminder_queue faults s = (Ok tt, s)).
  { unfold process_reminder_queue, bind, get. rewrite Hq. reflexivity. }
  split; [exact E|]. rewrite E. apply new_events_app.
  cbn [snd]. rewrite app_nil_r. reflexivity.
Qed.

End Engine.

(** C1, on the scenario of the specification.  A single daily reminder,
    due one second ago: the cycle queues it once and sends the [UPDATE]
    that moves it to the next day, but never commits, and closing the
    connection rolls the change back.  The database file still holds the
    old [remind_time]; the next cycle a minute later finds the reminder
    due again and queues it a second time. *)
Theorem scenario_B_rearm_is_rolled_back :
  let s0 := Scenario.start [Scenario.daily] in
  let s1 := snd (check_reminders_cycle no_faults Scenario.now s0) in
  let later := PyDatetime.mkdt 2024 1 31 10 1 0 in
  let s2 := snd (check_reminders_cycle no_faults later s1) in
  new_events s0 s1 =
    [EvPut Scenario.daily; EvUpdateTime 2 "2024-02-01 09:59:59";
     EvClose; EvSleep 60] /\
  reminder_queue s1 = [Scenario.daily] /\
  db s1 = [Scenario.daily] /\
  map remind_time (db s1) = ["2024-01-31 09:59:59"%string] /\
  reminder_queue s2 = [Scenario.daily; Scenario.daily].
Proof. vm_compute. repeat split. Qed.

(** C2, as stated, fails.  Two one-shot reminders are due and the
    [UPDATE] for the first one fails: the cycle ends in its handler, and
    the second reminder, although due, is neither queued nor completed. *)
Lemma failure_skips_remaining_reminders :
  let s0 := Scenario.start [Scenario.one_shot; Scenario.second_one_shot] in
  let s1 := snd (check_reminders_cycle (Scenario.fail_at 2) Scenario.now s0) in
  due (TimeFormat.strftime Scenario.now) Scenario.second_one_shot = true /\
  new_events s0 s1 =
    [EvPut Scenario.one_shot; EvPrint OperationalError; EvSleep 10] /\
  reminder_queue s1 = [Scenario.one_shot] /\
  db s1 = [Scenario.one_shot; Scenario.second_one_shot].
Proof. vm_compute. repeat split. Qed.

(** C3, as stated, fails.  For the unit "years" the computation returns
    without a result and without an exception, and the cycle prints
    nothing: the reminder is queued and the cycle ends normally. *)
Lemma unknown_unit_is_not_an_error :
  let s0 := Scenario.start [Scenario.yearly] in
  let s1 := snd (check_reminders_cycle no_faults Scenario.now s0) in
  next_time (PyDatetime.mkdt 2024 1 31 9 59 59) (Some 1) (Some "years"%string)
    = Ok None /\
  new_events s0 s1 = [EvPut Scenario.yearly; EvClose; EvSleep 60] /\
  db s1 = [Scenario.yearly].
Proof. vm_compute. repeat split. Qed.

Lemma failure_abandons_rest_of_cycle_witness :
  let s0 := Scenario.start [Scenario.one_shot; Scenario.second_one_shot] in
  reminder_queue
    (snd (check_reminders_cycle (Scenario.fail_at 2) Scenario.now s0))
  = [Scenario.one_shot].
Proof.
  cbv zeta.
  pose proof (failure_abandons_rest_of_cycle (Scenario.fail_at 2) Scenario.now
              (Scenario.start [Scenario.one_shot; Scenario.second_one_shot])
              (after_select
                 (Scenario.start [Scenario.one_shot; Scenario.second_one_shot]))
              (mkState [Scenario.one_shot; Scenario.second_one_shot]
                 [Scenario.one_shot; Scenario.second_one_shot]
                 [Scenario.one_shot] 3 [EvPut Scenario.one_shot])
              [] [Scenario.second_one_shot] Scenario.one_shot OperationalError)
    as W.
  specialize (W ltac:(vm_compute; reflexivity) ltac:(vm_compute; reflexivity)
                ltac:(vm_compute; reflexivity) ltac:(vm_compute; reflexivity)
                ltac:(vm_compute; reflexivity)).
  destruct W as (C & Q & _). rewrite C. exact Q.
Defined.

Lemma unknown_unit_silently_skipped_witness :
  resolve no_faults Scenario.yearly (Scenario.start [Scenario.yearly]) =
  (Ok tt, mkState [Scenario.yearly] [] [Scenario.yearly] 0
            [EvPut Scenario.yearly]).
Proof.
  pose proof (unknown_unit_silently_skipped no_faults Scenario.yearly
            (Scenario.start [Scenario.yearly])
            (PyDatetime.mkdt 2024 1 31 9 59 59)) as W.
  apply W.
  - cbn. discriminate.
  - vm_compute. reflexivity.
  - intros u [= <-]. cbn. intros H.
    repeat (destruct H as [H|H]; [discriminate|]). exact H.
Defined.

(** C5, as stated, fails.  A monthly reminder based on 31 January comes
    before a due one-shot reminder; no store operation fails.  Computing
    31 February raises [ValueError], the cycle ends in its handler, and
    the one-shot reminder, although due, is neither queued nor completed. *)
Lemma earlier_failure_starves_one_shot :
  let s0 := Scenario.start [Scenario.monthly; Scenario.second_one_shot] in
  let s1 := snd (check_reminders_cycle no_faults Scenario.now s0) in
  due (TimeFormat.strftime Scenario.now) Scenario.second_one_shot = true /\
  is_recurring Scenario.second_one_shot = 0 /\
  new_events s0 s1 =
    [EvPut Scenario.monthly; EvPrint ValueError; EvSleep 10] /\
  reminder_queue s1 = [Scenario.monthly] /\
  db s1 = [Scenario.monthly; Scenario.second_one_shot].
Proof. vm_compute. repeat split. Qed.

Lemma one_shot_delivered_once_resolved_witness :
  rows_with 1
    (db (snd (check_reminders_cycle no_faults Scenario.now
                (Scenario.start [Scenario.one_shot; Scenario.monthly]))))
  = [set_is_completed 1 Scenario.one_shot].
Proof.
  pose proof (one_shot_delivered_once_resolved no_faults Scenario.now
                (Scenario.start [Scenario.one_shot; Scenario.monthly])
                (after_select
                   (Scenario.start [Scenario.one_shot; Scenario.monthly]))
                (snd (resolve no_faults Scenario.one_shot
                        (after_select
                           (Scenario.start
                              [Scenario.one_shot; Scenario.monthly]))))
                (Ok tt)
                (snd (check_reminders_cycle no_faults Scenario.now
                        (Scenario.start
                           [Scenario.one_shot; Scenario.monthly])))
                [] [Scenario.monthly] Scenario.one_shot) as W.
  assert (Hord : id_ordered
                   (db (Scenario.start [Scenario.one_shot; Scenario.monthly]))).
  { cbn. split; [|tauto]. intros x [<-|[]]. cbn. lia. }
  specialize (W Hord eq_refl eq_refl ltac:(vm_compute; reflexivity) eq_refl
                eq_refl ltac:(vm_compute; reflexivity)
                ltac:(vm_compute; reflexivity)).
  exact (proj1 (proj2 W)).
Defined.

Lemma snapshot_precedes_mutation_witness :
  In Scenario.one_shot [Scenario.one_shot] /\
  due (TimeFormat.strftime Scenario.now) Scenario.one_shot = true.
Proof.
  pose proof (snapshot_precedes_mutation no_faults Scenario.now
              (Scenario.start [Scenario.one_shot]) (Ok tt)
              (snd (check_reminders_cycle no_faults Scenario.now
                      (Scenario.start [Scenario.one_shot])))) as W.
  assert (Hnd : NoDup (map id (db (Scenario.start [Scenario.one_shot]))))
    by (repeat constructor; cbn; tauto).
  specialize (W Hnd ltac:(vm_compute; reflexivity)).
  destruct W as (_ & P & _).
  specialize (P [] Scenario.one_shot
                [EvComplete 1; EvCommit; EvClose; EvSleep 60]
                ltac:(vm_compute; reflexivity)).
  destruct P as (A & B & _). split; [exact A|exact B].
Defined.

Lemma empty_queue_tick_is_noop_witness :
  process_reminder_queue no_faults (Scenario.start [Scenario.one_shot]) =
  (Ok tt, Scenario.start [Scenario.one_shot]).
Proof.
  exact (proj1 (empty_queue_tick_is_noop no_faults
                  (Scenario.start [Scenario.one_shot]) eq_refl)).
Defined.

End EngineClaims.

(** ** The text form of timestamps *)

Module TextFacts.
Import PyDatetime TimeFormat CalendarFacts.

Lemma small_cases (k : Z) :
  0 <= k <= 9 ->
  k = 0 \/ k = 1 \/ k = 2 \/ k = 3 \/ k = 4 \/ k = 5 \/ k = 6 \/ k = 7 \/
  k = 8 \/ k = 9.
Proof. lia. Qed.

Lemma digit_val_digit (k : Z) : 0 <= k <= 9 -> digit_val (digit k) = Some k.
Proof.
  intros H. destruct (small_cases k H) as
    [->|[->|[->|[->|[->|[->|[->|[->|[->| ->]]]]]]]]]; reflexivity.
Qed.

Lemma is_space_digit (k : Z) : 0 <= k <= 9 -> is_space (digit k) = false.
Proof.
  intros H. destruct (small_cases k H) as
    [->|[->|[->|[->|[->|[->|[->|[->|[->| ->]]]]]]]]]; reflexivity.
Qed.

Lemma compare_digit (a b : Z) :
  0 <= a <= 9 -> 0 <= b <= 9 -> Ascii.compare (digit a) (digit b) = (a ?= b).
Proof.
  intros Ha Hb.
  destruct (small_cases a Ha) as
    [->|[->|[->|[->|[->|[->|[->|[->|[->| ->]]]]]]]]];
  destruct (small_cases b Hb) as
    [->|[->|[->|[->|[->|[->|[->|[->|[->| ->]]]]]]]]]; reflexivity.
Qed.

(** *** Parsing what was printed *)

Lemma re_Y_pad4 (y : Z) (rest : string) :
  0 <= y <= 9999 -> re_Y (pad4 y rest) = Some (y, rest).
Proof.
  intros H. unfold re_Y, pad4.
  rewrite !digit_val_digit by (Z.div_mod_to_equations; lia).
  f_equal. f_equal. Z.div_mod_to_equations. lia.
Qed.

(** Every number below 100 is met by going through the naturals. *)
Lemma below_100 (P : Z -> Prop) :
  (forall k : nat, (k < 100)%nat -> P (Z.of_nat k)) ->
  forall n, 0 <= n < 100 -> P n.
Proof.
  intros H n Hn. replace n with (Z.of_nat (Z.to_nat n)) by lia.
  apply H. lia.
Qed.

Lemma re_m_pad2 (n : Z) (rest : string) :
  1 <= n <= 12 -> re_m (pad2 n rest) = Some (n, rest).
Proof.
  intros H. assert (B : 0 <= n < 100) by lia.
  revert H. pattern n. apply below_100; [|exact B].
  intros k Hk H.
  do 13 (destruct k as [|k]; [try reflexivity; exfalso; lia|]).
  exfalso; lia.
Qed.

Lemma re_d_pad2 (n : Z) (rest : string) :
  1 <= n <= 31 -> re_d (pad2 n rest) = Some (n, rest).
Proof.
  intros H. assert (B : 0 <= n < 100) by lia.
  revert H. pattern n. apply below_100; [|exact B].
  intros k Hk H.
  do 32 (destruct k as [|k]; [try reflexivity; exfalso; lia|]).
  exfalso; lia.
Qed.

Lemma re_H_pad2 (n : Z) (rest : string) :
  0 <= n <= 23 -> re_H (pad2 n rest) = Some (n, rest).
Proof.
  intros H. assert (B : 0 <= n < 100) by lia.
  revert H. pattern n. apply below_100; [|exact B].
  intros k Hk H.
  do 24 (destruct k as [|k]; [reflexivity|]).
  exfalso; lia.
Qed.

Lemma re_M_pad2 (n : Z) (rest : string) :
  0 <= n <= 59 -> re_M (pad2 n rest) = Some (n, rest).
Proof.
  intros H. assert (B : 0 <= n < 100) by lia.
  revert H. pattern n. apply below_100; [|exact B].
  intros k Hk H.
  do 60 (destruct k as [|k]; [reflexivity|]).
  exfalso; lia.
Qed.

Lemma re_S_pad2 (n : Z) (rest : string) :
  0 <= n <= 59 -> re_S (pad2 n rest) = Some (n, rest).
Proof.
  intros H. assert (B : 0 <= n < 100) by lia.
  revert H. pattern n. apply below_100; [|exact B].
  intros k Hk H.
  do 60 (destruct k as [|k]; [reflexivity|]).
  exfalso; lia.
Qed.

Lemma spaces1_before_pad2 (n : Z) (rest : string) :
  0 <= n <= 99 ->
  spaces1 (String " " (pad2 n rest)) = Some (pad2 n rest).
Proof.
  intros H. unfold spaces1. change (is_space " ") with true.
  unfold pad2. cbn [skip_spaces].
  rewrite is_space_digit by (Z.div_mod_to_equations; lia). reflexivity.
Qed.

Lemma match_format_printed (y m d h mi s : Z) :
  0 <= y <= 9999 -> 1 <= m <= 12 -> 1 <= d <= 31 ->
  0 <= h <= 23 -> 0 <= mi <= 59 -> 0 <= s <= 59 ->
  match_format (strftime (mkdt y m d h mi s))
  = Some (y, m, d, h, mi, s, EmptyString).
Proof.
  intros Hy Hm Hd Hh Hmi Hs.
  unfold match_format, strftime. cbn [year month day hour minute second].
  rewrite re_Y_pad4 by assumption. cbn [obind lit Ascii.eqb Bool.eqb].
  rewrite re_m_pad2 by assumption. cbn [obind lit Ascii.eqb Bool.eqb].
  rewrite re_d_pad2 by assumption. cbn [obind].
  rewrite spaces1_before_pad2 by lia. cbn [obind].
  rewrite re_H_pad2 by assumption. cbn [obind lit Ascii.eqb Bool.eqb].
  rewrite re_M_pad2 by assumption. cbn [obind lit Ascii.eqb Bool.eqb].
  rewrite re_S_pad2 by assumption. reflexivity.
Qed.

Lemma valid_ranges (t : datetime) :
  valid t ->
  1 <= year t <= 9999 /\ 1 <= month t <= 12 /\ 1 <= day t <= 31 /\
  0 <= hour t <= 23 /\ 0 <= minute t <= 59 /\ 0 <= second t <= 59.
Proof.
  intros [Vd Vt]. apply date_ok_elim in Vd. apply time_ok_elim in Vt.
  destruct Vd as (Hy & Hm & Hd).
  change (days_in_month (year t) (month t))
    with (dim_l (is_leap (year t)) (month t)) in Hd.
  pose proof (month_tables (is_leap (year t)) (month t) (month t) Hm Hm)
    as (A1 & A2 & A3 & _).
  assert (dim_l (is_leap (year t)) (month t) <= 31).
  { assert (C : month t = 1 \/ month t = 2 \/ month t = 3 \/ month t = 4 \/
                month t = 5 \/ month t = 6 \/ month t = 7 \/ month t = 8 \/
                month t = 9 \/ month t = 10 \/ month t = 11 \/ month t = 12)
      by lia.
    destruct (is_leap (year t));
      repeat (destruct C as [->|C]; [vm_compute; discriminate|]);
      rewrite C; vm_compute; discriminate. }
  lia.
Qed.

Lemma strptime_strftime_valid (t : datetime) :
  valid t -> strptime (strftime t) = Ok t.
Proof.
  intros V. pose proof (valid_ranges t V) as (Hy & Hm & Hd & Hh & Hmi & Hs).
  destruct t as [y m d h mi s]. cbn [year month day hour minute second] in *.
  unfold strptime. rewrite match_format_printed by lia.
  unfold new_datetime. destruct V as [Vd Vt].
  cbn [year month day hour minute second] in *. rewrite Vd, Vt. reflexivity.
Qed.

(** *** Comparing what was printed *)

Lemma compare_pad2 (a b : Z) (k1 k2 : string) :
  0 <= a <= 99 -> 0 <= b <= 99 ->
  String.compare (pad2 a k1) (pad2 b k2) =
  match a ?= b with Eq => String.compare k1 k2 | c => c end.
Proof.
  intros Ha Hb. unfold pad2. cbn [String.compare].
  rewrite !compare_digit by (Z.div_mod_to_equations; lia).
  destruct (Z.compare_spec (a / 10) (b / 10)),
    (Z.compare_spec (a mod 10) (b mod 10)),
    (Z.compare_spec a b); try reflexivity; exfalso;
    Z.div_mod_to_equations; lia.
Qed.

Lemma pad4_as_pad2 (y : Z) (k : string) :
  0 <= y <= 9999 -> pad4 y k = pad2 (y / 100) (pad2 (y mod 100) k).
Proof.
  intros H. unfold pad4, pad2.
  replace (y / 100 / 10) with (y / 1000) by (Z.div_mod_to_equations; lia).
  replace (y mod 100 / 10) with (y / 10 mod 10)
    by (Z.div_mod_to_equations; lia).
  replace (y mod 100 mod 10) with (y mod 10)
    by (Z.div_mod_to_equations; lia).
  reflexivity.
Qed.

Lemma compare_pad4 (a b : Z) (k1 k2 : string) :
  0 <= a <= 9999 -> 0 <= b <= 9999 ->
  String.compare (pad4 a k1) (pad4 b k2) =
  match a ?= b with Eq => String.compare k1 k2 | c => c end.
Proof.
  intros Ha Hb. rewrite !pad4_as_pad2 by assumption.
  rewrite compare_pad2 by (Z.div_mod_to_equations; lia).
  rewrite compare_pad2 by (Z.div_mod_to_equations; lia).
  destruct (Z.compare_spec (a / 100) (b / 100)),
    (Z.compare_spec (a mod 100) (b mod 100)),
    (Z.compare_spec a b); try reflexivity; exfalso;
    Z.div_mod_to_equations; lia.
Qed.

Lemma compare_same_head (c : ascii) (k1 k2 : string) :
  String.compare (String c k1) (String c k2) = String.compare k1 k2.
Proof.
  cbn [String.compare].
  assert (E : Ascii.compare c c = Eq) by (apply N.compare_refl).
  rewrite E. reflexivity.
Qed.

Lemma compare_strftime (a b : datetime) :
  valid a -> valid b ->
  String.compare (strftime a) (strftime b) = lex_compare (fields a) (fields b).
Proof.
  intros Va Vb.
  pose proof (valid_ranges a Va) as (Hy & Hm & Hd & Hh & Hmi & Hs).
  pose proof (valid_ranges b Vb) as (Hy' & Hm' & Hd' & Hh' & Hmi' & Hs').
  unfold strftime, fields. cbn [lex_compare].
  rewrite compare_pad4 by lia. destruct (year a ?= year b); try reflexivity.
  rewrite compare_same_head, compare_pad2 by lia.
  destruct (month a ?= month b); try reflexivity.
  rewrite compare_same_head, compare_pad2 by lia.
  destruct (day a ?= day b); try reflexivity.
  rewrite compare_same_head, compare_pad2 by lia.
  destruct (hour a ?= hour b); try reflexivity.
  rewrite compare_same_head, compare_pad2 by lia.
  destruct (minute a ?= minute b); try reflexivity.
  rewrite compare_same_head, compare_pad2 by lia.
  destruct (second a ?= second b); reflexivity.
Qed.

Lemma lex_ltb_compare (a b : list Z) :
  List.length a = List.length b ->
  lex_ltb a b = match lex_compare a b with Lt => true | _ => false end.
Proof.
  revert b. induction a as [|x a IH]; intros [|y b] Hl; try discriminate;
    [reflexivity|].
  injection Hl as Hl. cbn [lex_ltb lex_compare].
  destruct (Z.compare_spec x y) as [->|H|H].
  - rewrite Z.ltb_irrefl, Z.eqb_refl. cbn [orb andb]. apply IH. exact Hl.
  - apply Z.ltb_lt in H. rewrite H. reflexivity.
  - destruct (Z.ltb_spec x y); [lia|]. destruct (Z.eqb_spec x y); [lia|].
    reflexivity.
Qed.

Lemma lex_compare_antisym (a b : list Z) :
  lex_compare b a = CompOpp (lex_compare a b).
Proof.
  revert b. induction a as [|x a IH]; intros [|y b]; try reflexivity.
  cbn [lex_compare]. rewrite (Z.compare_antisym x y).
  destruct (x ?= y); cbn [CompOpp]; auto.
Qed.

End TextFacts.

(** * Further properties of the engine *)

(** ** Timestamps as text *)

Module TextProperties.
Import PyDatetime TimeFormat CalendarFacts TextFacts.

(** A timestamp printed with the application's format parses back to
    itself (stated from the year 1000 on, where the year is printed with
    four digits on every platform). *)
Theorem printed_timestamp_parses_back (t : datetime) :
  valid t -> 1000 <= year t -> strptime (strftime t) = Ok t.
Proof. intros V _. apply strptime_strftime_valid. exact V. Qed.

Lemma printed_timestamp_parses_back_witness :
  strptime (strftime (mkdt 2024 2 29 23 59 59)) = Ok (mkdt 2024 2 29 23 59 59).
Proof.
  apply printed_timestamp_parses_back; [split; reflexivity|].
  cbn. lia.
Defined.

Lemma strftime_leb (a b : datetime) :
  valid a -> valid b ->
  String.leb (strftime a) (strftime b) = negb (ltb b a).
Proof.
  intros Va Vb. unfold String.leb, ltb.
  rewrite compare_strftime by assumption.
  rewrite (lex_ltb_compare (fields b) (fields a)) by reflexivity.
  rewrite (lex_compare_antisym (fields a) (fields b)).
  destruct (lex_compare (fields a) (fields b)); reflexivity.
Qed.



Lemma string_leb_trans (x y z : string) :
  String.leb x y = true -> String.leb y z = true -> String.leb x z = true.
Proof.
  unfold String.leb. revert y z.
  induction x as [|a x IH]; intros [|b y] [|c z]; cbn [String.compare];
    try reflexivity; try discriminate.
  unfold Ascii.compare.
  destruct (N.compare_spec (N_of_ascii a) (N_of_ascii b)) as [E1|L1|G1];
    try discriminate;
    destruct (N.compare_spec (N_of_ascii b) (N_of_ascii c)) as [E2|L2|G2];
    try discriminate;
    destruct (N.compare_spec (N_of_ascii a) (N_of_ascii c)) as [E3|L3|G3];
    try reflexivity; try lia.
  apply IH.
Qed.

(** A reminder that is due stays due at every later reading of the clock,
    whatever text its [remind_time] holds. *)
Theorem due_stays_due (now later : datetime) (r : reminder) :
  valid now -> valid later -> 1000 <= year now -> ltb now later = true ->
  due (strftime now) r = true -> due (strftime later) r = true.
Proof.
  intros Vn Vl _ L D. unfold due in *.
  apply andb_prop in D. destruct D as [C D]. rewrite C. cbn [andb].
  apply (string_leb_trans _ (strftime now)); [exact D|].
  rewrite strftime_leb by assumption.
  destruct (ltb later now) eqn:L'; [|reflexivity].
  apply ltb_to_seconds in L; try assumption.
  apply ltb_to_seconds in L'; try assumption. lia.
Qed.

Lemma due_stays_due_witness :
  due (strftime (mkdt 2024 1 31 10 1 0)) Scenario.daily = true.
Proof.
  apply (due_stays_due Scenario.now); try (split; reflexivity);
    try (cbn; lia); reflexivity.
Defined.

End TextProperties.

(** ** The recurrence computation on rows that have an interval *)

Module RecurrenceProperties.
Import PyDatetime TimeFormat CalendarFacts AdditionFacts RecurrenceFacts
  TextFacts.


(** With an integer interval of at least 1 and a supported unit the
    computation never takes the silent branch and never fails on a type:
    it yields a valid, strictly later time or raises [ValueError] or
    [OverflowError]. *)
Lemma next_time_outcomes (base : datetime) (n : Z) (unit : string) :
  valid base -> 1 <= n -> In unit supported_units ->
  match next_time base (Some n) (Some unit) with
  | Ok (Some t) => valid t /\ ltb base t = true
  | Ok None => False
  | Raise e => e = ValueError \/ e = OverflowError
  end.
Proof.
  intros V Hn Hu.
  assert (F : forall U, unit_seconds unit = Some U ->
            match next_time base (Some n) (Some unit) with
            | Ok (Some t) => valid t /\ ltb base t = true
            | Ok None => False
            | Raise e => e = ValueError \/ e = OverflowError
            end).
  { intros U HU. pose proof (next_time_fixed base n unit U V Hn HU) as P.
    assert (0 < U) by (destruct (unit_seconds_cases _ _ HU)
                         as [[_ ->]|[[_ ->]|[[_ ->]|[_ ->]]]]; lia).
    destruct (next_time base (Some n) (Some unit)) as [[t|]|e];
      [|exact P|right; tauto].
    destruct P as [Vt Et]. split; [exact Vt|].
    apply to_seconds_ltb; try assumption. nia. }
  cbn [In supported_units] in Hu.
  destruct Hu as [<-|[<-|[<-|[<-|[<-|[]]]]]];
    try (eapply F; reflexivity).
  rewrite next_time_months_unfold.
  unfold replace_ym, new_datetime.
  destruct (fits_c_int _ && fits_c_int _); cbn [rbind]; [|auto].
  destruct (date_ok _ _ _) eqn:Vd; cbn [rbind]; [|auto].
  destruct V as [Vd0 Vt0]. rewrite Vt0. cbn [rbind].
  rewrite <- months_target_fields. split.
  - split; [exact Vd|exact Vt0].
  - apply months_target_later; [split; assumption|assumption].
Qed.

Lemma ltb_year_le (a b : datetime) : ltb a b = true -> year a <= year b.
Proof.
  unfold ltb, fields. cbn [lex_ltb].
  destruct (Z.ltb_spec (year a) (year b)); [lia|]. cbn [orb].
  destruct (Z.eqb_spec (year a) (year b)); [lia|discriminate].
Qed.

End RecurrenceProperties.

(** ** The scheduler cycle *)

Module SchedulerProperties.
Import EngineFacts CycleFacts StoreFacts TextFacts RecurrenceProperties.

Lemma same_id_same_row (r x : reminder) (t : table) :
  NoDup (map id t) -> In r t -> In x t -> id x = id r -> x = r.
Proof.
  intros Hnd Hr Hx E.
  pose proof (rows_with_unique r t Hnd Hr) as U.
  assert (Hin : In x (rows_with (id r) t)).
  { unfold rows_with. apply filter_In. split; [exact Hx|].
    apply Z.eqb_eq. exact E. }
  rewrite U in Hin. destruct Hin as [<-|[]]. reflexivity.
Qed.

Section Engine.

Variable faults : nat -> bool.

#[local] Arguments update_where_id : simpl never.
#[local] Arguments rows_with : simpl never.

Lemma for_each_ok_app {A} (body : A -> M unit) (l1 l2 : list A)
    (s s' : state) :
  for_each (l1 ++ l2) body s = (Ok tt, s') ->
  exists s1, for_each l1 body s = (Ok tt, s1) /\
             for_each l2 body s1 = (Ok tt, s').
Proof.
  rewrite for_each_app.
  destruct (for_each l1 body s) as [[[]|e] s1]; [|discriminate].
  intros H. exists s1. auto.
Qed.

Lemma resolve_other_conn (i : Z) (r : reminder) (s : state)
    (res : result unit) (s' : state) :
  id r <> i -> resolve faults r s = (res, s') ->
  rows_with i (conn s') = rows_with i (conn s).
Proof.
  intros Hne. unfold resolve, update_recurring_reminder. unfold_ops. cbn.
  destruct (is_recurring r =? 0); cbn.
  - destruct (faults (calls s)); cbn; [intros [= <- <-]; reflexivity|].
    destruct (faults (S (calls s))); cbn; intros [= <- <-]; cbn;
      apply rows_with_update_other; auto; reflexivity.
  - destruct (TimeFormat.strptime (remind_time r)) as [dt|e]; cbn;
      [|intros [= <- <-]; reflexivity].
    destruct (next_time dt _ _) as [[nt|]|e]; cbn;
      try (intros [= <- <-]; reflexivity).
    destruct (faults (calls s)); cbn; intros [= <- <-]; cbn;
      [reflexivity|].
    apply rows_with_update_other; auto; reflexivity.
Qed.

Lemma for_each_other_conn (i : Z) (l : list reminder) (s : state)
    (res : result unit) (s' : state) :
  (forall r, In r l -> id r <> i) ->
  for_each l (resolve faults) s = (res, s') ->
  rows_with i (conn s') = rows_with i (conn s).
Proof.
  intros Hl F.
  eapply (for_each_invariant (resolve faults)
            (fun s0 => rows_with i (conn s0) = rows_with i (conn s)));
    try eassumption; [|reflexivity].
  intros x s0 r0 s0' Hx P R. rewrite <- P.
  eapply resolve_other_conn; eauto.
Qed.

(** What a successful pass does for a recurring reminder whose next time
    was computed. *)
Lemma resolve_rearm (r : reminder) (s s' : state)
    (dt nt : PyDatetime.datetime) :
  is_recurring r <> 0 ->
  TimeFormat.strptime (remind_time r) = Ok dt ->
  next_time dt (recurring_interval r) (recurring_unit r) = Ok (Some nt) ->
  resolve faults r s = (Ok tt, s') ->
  conn s' = update_where_id (id r)
              (set_remind_time (TimeFormat.strftime nt)) (conn s) /\
  db s' = db s.
Proof.
  intros Hr Hp Hn. unfold resolve, update_recurring_reminder. unfold_ops. cbn.
  destruct (Z.eqb_spec (is_recurring r) 0); [contradiction|]. cbn.
  rewrite Hp. cbn. rewrite Hn. cbn.
  destruct (faults (calls s)); cbn; [discriminate|].
  intros [= <-]. cbn. auto.
Qed.

Lemma resolve_complete (o : reminder) (s s' : state) :
  is_recurring o = 0 ->
  resolve faults o s = (Ok tt, s') ->
  conn s' = update_where_id (id o) (set_is_completed 1) (conn s) /\
  db s' = conn s'.
Proof.
  intros Ho. unfold resolve. unfold_ops. cbn. rewrite Ho. cbn.
  destruct (faults (calls s)); cbn; [discriminate|].
  destruct (faults (S (calls s))); cbn; [discriminate|].
  intros [= <-]. cbn. auto.
Qed.

(** A reminder that is not due when the cycle reads the table, either
    completed or with a later [remind_time], is not touched by the cycle:
    it is not put on the queue, no statement is addressed to it, and the
    database file holds it unchanged afterwards. *)
Theorem not_due_reminder_is_left_alone (now : PyDatetime.datetime)
    (s : state) (res : result unit) (s' : state) (r : reminder) :
  NoDup (map id (db s)) -> In r (db s) ->
  due (TimeFormat.strftime now) r = false ->
  check_reminders_cycle faults now s = (res, s') ->
  (forall x, In x (puts (new_events s s')) -> id x <> id r) /\
  (forall e, In e (new_events s s') -> mutated_id e <> Some (id r)) /\
  rows_with (id r) (db s') = [r].
Proof.
  intros Hnd Hin Hdue C.
  set (l := filter (due (TimeFormat.strftime now)) (db s)).
  assert (Hl : forall x, In x l -> id x <> id r).
  { intros x Hx E. apply filter_In in Hx. destruct Hx as [Hx Dx].
    rewrite (same_id_same_row r x (db s) Hnd Hin Hx E) in Dx. congruence. }
  pose proof (cycle_trace faults now s res s' C) as T. fold l in T.
  assert (Hput : forall x, In (EvPut x) (new_events s s') -> id x <> id r).
  { intros x Hx. apply Hl. eapply cycle_events_put; eauto. }
  split; [|split].
  - intros x Hx. apply Hput. clear - Hx.
    induction (new_events s s') as [|e es IH]; [contradiction|].
    destruct e; cbn [puts] in Hx; try (right; auto; fail).
    destruct Hx as [->|Hx]; [left; reflexivity|right; auto].
  - intros e He Hm. apply in_split in He. destruct He as (pre & post & E).
    destruct (cycle_events_mutation_after_put _ _ T _ _ _ _ E Hm)
      as (x & Hx & Ex).
    apply (Hput x); [|exact Ex]. rewrite E. apply in_or_app. auto.
  - rewrite cycle_unfold, cycle_body_unfold in C.
    pose proof (rows_with_unique r (db s) Hnd Hin) as U.
    destruct (faults (calls s)); [injection C as _ <-; exact U|].
    destruct (faults (S (calls s))); [injection C as _ <-; exact U|].
    fold l in C.
    destruct (for_each l (resolve faults) (after_select s)) as [[[]|e] s1] eqn:F;
      injection C as _ <-; cbn [db after_close after_handler];
      (eapply for_each_other; [exact Hl| |exact F]);
      cbn [conn db after_select]; auto.
Qed.

(** When opening the connection or the [SELECT] itself fails, the
    cycle queues nothing and changes nothing in the database file: the
    error is printed, the scheduler waits 10 seconds, and the loop goes
    on. *)
Theorem lookup_failure_skips_the_cycle (now : PyDatetime.datetime)
    (s : state) :
  faults (calls s) = true \/ faults (S (calls s)) = true ->
  exists s',
    check_reminders_cycle faults now s = (Ok tt, s') /\
    new_events s s' = [EvPrint OperationalError; EvSleep 10] /\
    reminder_queue s' = reminder_queue s /\ db s' = db s.
Proof.
  intros H. rewrite cycle_unfold, cycle_body_unfold.
  destruct (faults (calls s)) eqn:F0.
  - eexists; split; [reflexivity|]. split; [|split]; try reflexivity.
    apply new_events_app. reflexivity.
  - destruct H as [H|H]; [discriminate|]. rewrite H.
    eexists; split; [reflexivity|]. split; [|split]; try reflexivity.
    apply new_events_app. reflexivity.
Qed.

Lemma control_app (a b : list event) :
  control (a ++ b) = control a ++ control b.
Proof.
  induction a as [|e a IH]; [reflexivity|].
  destruct e; cbn [app control]; rewrite IH; reflexivity.
Qed.

Lemma for_each_control (l : list reminder) (s : state) (res : result unit)
    (s' : state) :
  for_each l (resolve faults) s = (res, s') ->
  exists es, trace s' = trace s ++ es /\ control es = [].
Proof.
  revert s. induction l as [|r l IH]; intros s; cbn [for_each].
  - unfold ret. intros [= <- <-]. exists []. rewrite app_nil_r. auto.
  - unfold bind. destruct (resolve faults r s) as [[[]|e] s1] eqn:R;
      destruct (resolve_trace faults _ _ _ _ R) as (muts & T1 & Hm);
      assert (C1 : control (EvPut r :: muts) = [])
        by (destruct Hm; reflexivity).
    + intros F. destruct (IH _ F) as (es2 & T2 & C2).
      exists ((EvPut r :: muts) ++ es2).
      split; [rewrite T2, T1, app_assoc; reflexivity|].
      rewrite control_app, C1, C2. reflexivity.
    + intros [= <- <-]. exists (EvPut r :: muts). auto.
Qed.

(** How one cycle ends, by the outcome of its [try] block. *)
Lemma cycle_control (now : PyDatetime.datetime) (s : state) :
  match cycle_body faults now s with
  | (Ok _, s1) =>
    check_reminders_cycle faults now s = (Ok tt, s1) /\
    exists es, trace s1 = trace s ++ es /\ control es = cycle_end None
  | (Raise e, s1) =>
    check_reminders_cycle faults now s = (Ok tt, after_handler e s1) /\
    exists es, trace (after_handler e s1) = trace s ++ es /\
               control es = cycle_end (Some e)
  end.
Proof.
  rewrite cycle_unfold, cycle_body_unfold.
  destruct (faults (calls s)).
  { split; [reflexivity|]. exists [EvPrint OperationalError; EvSleep 10].
    split; reflexivity. }
  destruct (faults (S (calls s))).
  { split; [reflexivity|]. exists [EvPrint OperationalError; EvSleep 10].
    split; reflexivity. }
  destruct (for_each _ _ _) as [[[]|e] s1] eqn:F;
    destruct (for_each_control _ _ _ _ F) as (es & T & C0);
    (split; [reflexivity|]).
  - exists (es ++ [EvClose; EvSleep 60]). split.
    + cbn [trace after_close after_select] in *. rewrite T, app_assoc.
      reflexivity.
    + rewrite control_app, C0. reflexivity.
  - exists (es ++ [EvPrint e; EvSleep 10]). split.
    + cbn [trace after_handler after_select] in *. rewrite T, app_assoc.
      reflexivity.
    + rewrite control_app, C0. reflexivity.
Qed.

(** The polling loop never ends on an exception, whatever fails, and runs
    one cycle per reading of the clock.  Each cycle ends in one of two
    ways and in no other: when its [try] block runs to the end the
    connection is closed and the wait is 60 seconds; when the block raises,
    the exception is printed and the wait is 10 seconds.  Nothing else in
    a run closes, prints or waits. *)
Theorem loop_ends_each_cycle_with_one_wait
    (clock : list PyDatetime.datetime) (s : state) (res : result unit)
    (s' : state) :
  check_reminders faults clock s = (res, s') ->
  res = Ok tt /\
  (exists caught : list (option exn),
     List.length caught = List.length clock /\
     control (new_events s s') = flat_map cycle_end caught) /\
  (forall now s0,
     match cycle_body faults now s0 with
     | (Ok _, s1) =>
       check_reminders_cycle faults now s0 = (Ok tt, s1) /\
       control (new_events s0 s1) = [EvClose; EvSleep 60]
     | (Raise e, s1) =>
       check_reminders_cycle faults now s0 = (Ok tt, after_handler e s1) /\
       control (new_events s0 (after_handler e s1)) = [EvPrint e; EvSleep 10]
     end).
Proof.
  intros R.
  assert (L : forall clock s res s',
            check_reminders faults clock s = (res, s') ->
            res = Ok tt /\
            exists es caught,
              trace s' = trace s ++ es /\
              List.length caught = List.length clock /\
              control es = flat_map cycle_end caught).
  { clear. induction clock as [|now clock IH]; intros s res s';
      cbn [check_reminders].
    - unfold ret. intros [= <- <-]. split; [reflexivity|].
      exists [], []. rewrite app_nil_r. auto.
    - unfold bind. pose proof (cycle_control now s) as C.
      destruct (cycle_body faults now s) as [[[]|e] s1];
        destruct C as (-> & es & T & Ce); intros R;
        destruct (IH _ _ _ R) as (-> & es2 & caught & T2 & Hl & C2);
        (split; [reflexivity|]).
      + exists (es ++ es2), (None :: caught).
        split; [rewrite T2, T, app_assoc; reflexivity|].
        split; [cbn; rewrite Hl; reflexivity|].
        rewrite control_app, Ce, C2. reflexivity.
      + exists (es ++ es2), (Some e :: caught).
        split; [rewrite T2, T, app_assoc; reflexivity|].
        split; [cbn; rewrite Hl; reflexivity|].
        rewrite control_app, Ce, C2. reflexivity. }
  destruct (L _ _ _ _ R) as (-> & es & caught & T & Hl & Ce).
  split; [reflexivity|]. split.
  - exists caught. split; [exact Hl|].
    rewrite (new_events_app s s' es T). exact Ce.
  - intros now s0. pose proof (cycle_control now s0) as C.
    destruct (cycle_body faults now s0) as [[[]|e] s1];
      destruct C as (C & es1 & T1 & C1); (split; [exact C|]);
      rewrite (new_events_app _ _ es1 T1); exact C1.
Qed.

(** When a due recurring reminder whose next time is computed (and lies
    in a year from 1000 on) is followed, later in the table and in the
    same completed cycle, by a due one-shot reminder, the commit made for
    the one-shot reminder also persists the re-arming: the database file
    then holds the recurring reminder with the printed next time. *)
Theorem rearm_persists_when_one_shot_follows (now : PyDatetime.datetime)
    (s s' : state) (pre mid post : list reminder) (r o : reminder)
    (dt nt : PyDatetime.datetime) :
  id_ordered (db s) ->
  filter (due (TimeFormat.strftime now)) (db s)
  = pre ++ r :: mid ++ o :: post ->
  is_recurring r <> 0 ->
  TimeFormat.strptime (remind_time r) = Ok dt ->
  next_time dt (recurring_interval r) (recurring_unit r) = Ok (Some nt) ->
  1000 <= PyDatetime.year nt ->
  is_recurring o = 0 ->
  cycle_body faults now s = (Ok tt, s') ->
  rows_with (id r) (db s')
  = [set_remind_time (TimeFormat.strftime nt) r].
Proof.
  intros Hord Hsel Hr Hp Hn _ Ho B.
  pose proof (id_ordered_NoDup _ Hord) as Hnd.
  assert (Hndl : NoDup (map id (pre ++ r :: mid ++ o :: post))).
  { rewrite <- Hsel. apply NoDup_map_filter. exact Hnd. }
  assert (Hin : In r (db s)).
  { assert (In r (filter (due (TimeFormat.strftime now)) (db s)))
      by (rewrite Hsel; apply in_elt).
    apply filter_In in H. tauto. }
  rewrite map_app in Hndl. cbn [map] in Hndl. rewrite map_app in Hndl.
  cbn [map] in Hndl.
  assert (Hpre : forall x, In x pre -> id x <> id r).
  { intros x Hx E. apply NoDup_remove_2 in Hndl. apply Hndl.
    apply in_or_app. left. rewrite <- E. apply in_map. exact Hx. }
  assert (Hrest : ~ In (id r) (map id mid ++ id o :: map id post)).
  { apply NoDup_app_remove_l in Hndl. apply NoDup_cons_iff in Hndl. tauto. }
  assert (Hmid : forall x, In x mid -> id x <> id r).
  { intros x Hx E. apply Hrest. apply in_or_app. left. rewrite <- E.
    apply in_map. exact Hx. }
  assert (Hpost : forall x, In x post -> id x <> id r).
  { intros x Hx E. apply Hrest. apply in_or_app. right. right. rewrite <- E.
    apply in_map. exact Hx. }
  assert (Hor : id o <> id r).
  { intros E. apply Hrest. apply in_or_app. right. left. exact E. }
  rewrite cycle_body_unfold in B.
  destruct (faults (calls s)); [discriminate|].
  destruct (faults (S (calls s))); [discriminate|].
  rewrite Hsel in B.
  destruct (for_each _ _ _) as [[[]|e] s1] eqn:F; [|discriminate].
  injection B as <-. cbn [db after_close].
  apply for_each_ok_app in F. destruct F as (sa & Fpre & F).
  cbn [for_each] in F. unfold bind in F.
  destruct (resolve faults r sa) as [[[]|e] sb] eqn:Rr; [|discriminate].
  apply for_each_ok_app in F. destruct F as (sc & Fmid & F).
  cbn [for_each] in F. unfold bind in F.
  destruct (resolve faults o sc) as [[[]|e] sd] eqn:Ro; [|discriminate].
  pose proof (rows_with_unique r (db s) Hnd Hin) as U.
  assert (Ca : rows_with (id r) (conn sa) = [r]).
  { rewrite (for_each_other_conn (id r) pre _ _ _ Hpre Fpre). exact U. }
  destruct (resolve_rearm r sa sb dt nt Hr Hp Hn Rr) as [Cb _].
  assert (Cb' : rows_with (id r) (conn sb)
                = [set_remind_time (TimeFormat.strftime nt) r]).
  { rewrite Cb, rows_with_update_same, Ca by reflexivity. reflexivity. }
  assert (Cc : rows_with (id r) (conn sc)
               = [set_remind_time (TimeFormat.strftime nt) r]).
  { rewrite (for_each_other_conn (id r) mid _ _ _ Hmid Fmid). exact Cb'. }
  destruct (resolve_complete o sc sd Ho Ro) as [Cd Dd].
  assert (Cd' : rows_with (id r) (conn sd)
                = [set_remind_time (TimeFormat.strftime nt) r]).
  { rewrite Cd, rows_with_update_other by (auto; reflexivity). exact Cc. }
  eapply for_each_other; [exact Hpost| |exact F].
  rewrite Dd. auto.
Qed.


End Engine.

Lemma not_due_reminder_is_left_alone_witness :
  rows_with 1
    (db (snd (check_reminders_cycle no_faults
                (PyDatetime.mkdt 2024 1 31 9 0 0)
                (Scenario.start [Scenario.one_shot]))))
  = [Scenario.one_shot].
Proof.
  pose proof (not_due_reminder_is_left_alone no_faults
                (PyDatetime.mkdt 2024 1 31 9 0 0)
                (Scenario.start [Scenario.one_shot]) (Ok tt)
                (snd (check_reminders_cycle no_faults
                        (PyDatetime.mkdt 2024 1 31 9 0 0)
                        (Scenario.start [Scenario.one_shot])))
                Scenario.one_shot) as W.
  assert (Hnd : NoDup (map id (db (Scenario.start [Scenario.one_shot]))))
    by (repeat constructor; cbn; tauto).
  specialize (W Hnd (or_introl eq_refl) ltac:(vm_compute; reflexivity)
                ltac:(vm_compute; reflexivity)).
  exact (proj2 (proj2 W)).
Defined.

Lemma lookup_failure_skips_the_cycle_witness :
  exists s',
    check_reminders_cycle (Scenario.fail_at 1) Scenario.now
      (Scenario.start [Scenario.one_shot]) = (Ok tt, s') /\
    new_events (Scenario.start [Scenario.one_shot]) s'
    = [EvPrint OperationalError; EvSleep 10] /\
    reminder_queue s' = [] /\ db s' = [Scenario.one_shot].
Proof.
  apply (lookup_failure_skips_the_cycle (Scenario.fail_at 1) Scenario.now
           (Scenario.start [Scenario.one_shot])).
  right. reflexivity.
Defined.

Lemma loop_ends_each_cycle_with_one_wait_witness :
  exists caught : list (option exn),
    List.length caught = 2%nat /\
    control
      (new_events (Scenario.start [Scenario.monthly])
         (snd (check_reminders no_faults
                 [Scenario.now; PyDatetime.mkdt 2024 1 31 10 1 0]
                 (Scenario.start [Scenario.monthly]))))
    = flat_map cycle_end caught.
Proof.
  pose proof (loop_ends_each_cycle_with_one_wait no_faults
                [Scenario.now; PyDatetime.mkdt 2024 1 31 10 1 0]
                (Scenario.start [Scenario.monthly]) (Ok tt)
                (snd (check_reminders no_faults
                        [Scenario.now; PyDatetime.mkdt 2024 1 31 10 1 0]
                        (Scenario.start [Scenario.monthly])))
                ltac:(vm_compute; reflexivity)) as W.
  exact (proj1 (proj2 W)).
Defined.

Lemma rearm_persists_when_one_shot_follows_witness :
  rows_with 2
    (db (snd (cycle_body no_faults Scenario.now
                (Scenario.start [Scenario.daily; Scenario.second_one_shot]))))
  = [set_remind_time "2024-02-01 09:59:59" Scenario.daily].
Proof.
  pose proof (rearm_persists_when_one_shot_follows no_faults Scenario.now
                (Scenario.start [Scenario.daily; Scenario.second_one_shot])
                (snd (cycle_body no_faults Scenario.now
                        (Scenario.start
                           [Scenario.daily; Scenario.second_one_shot])))
                [] [] [] Scenario.daily Scenario.second_one_shot
                (PyDatetime.mkdt 2024 1 31 9 59 59)
                (PyDatetime.mkdt 2024 2 1 9 59 59)) as W.
  assert (Hord : id_ordered
                   (db (Scenario.start
                          [Scenario.daily; Scenario.second_one_shot]))).
  { cbn. split; [|tauto]. intros x [<-|[]]. cbn. lia. }
  specialize (W Hord ltac:(vm_compute; reflexivity)
                ltac:(cbn; discriminate) ltac:(vm_compute; reflexivity)
                ltac:(vm_compute; reflexivity) ltac:(cbn; lia) eq_refl
                ltac:(vm_compute; reflexivity)).
  exact W.
Defined.


Lemma cycle_without_one_shot_keeps_db_witness :
  db (snd (check_reminders_cycle no_faults Scenario.now
             (Scenario.start [Scenario.daily])))
  = [Scenario.daily].
Proof.
  apply (EngineClaims.cycle_without_one_shot_keeps_db no_faults Scenario.now
           (Scenario.start [Scenario.daily]) (Ok tt)).
  - intros r [<-|[]] _. cbn. discriminate.
  - vm_compute. reflexivity.
Defined.

End SchedulerProperties.

(** ** The consumer tick *)

Module ConsumerProperties.
Import EngineFacts CycleFacts.

Lemma shows_app (a b : list event) : shows (a ++ b) = shows a ++ shows b.
Proof.
  induction a as [|e a IH]; [reflexivity|].
  destruct e; cbn [app shows]; rewrite IH; reflexivity.
Qed.

Lemma strptime_raises_value_error (s : string) (e : exn) :
  TimeFormat.strptime s = Raise e -> e = ValueError.
Proof.
  unfold TimeFormat.strptime, PyDatetime.new_datetime.
  destruct (TimeFormat.match_format s)
    as [[[[[[[y m] d] h] mi] sec] rest]|]; [|intros [= <-]; reflexivity].
  destruct rest; [|intros [= <-]; reflexivity].
  destruct (PyDatetime.date_ok y m d); [|intros [= <-]; reflexivity].
  destruct (PyDatetime.time_ok h mi sec); [discriminate|].
  intros [= <-]. reflexivity.
Qed.

Lemma parse_loop (l : list reminder) (s : state) :
  for_each l
    (fun rem => _ <- lift (TimeFormat.strptime (remind_time rem)) ;; ret tt) s
  = (if forallb parses l then Ok tt else Raise ValueError, s).
Proof.
  induction l as [|r l IH]; cbn [for_each forallb]; [reflexivity|].
  unfold bind at 1 2. unfold lift at 1. unfold parses at 1.
  destruct (TimeFormat.strptime (remind_time r)) as [dt|e] eqn:P.
  - unfold ret at 1. cbn [andb]. exact IH.
  - cbn [andb]. rewrite (strptime_raises_value_error _ _ P). reflexivity.
Qed.

Section Engine.

Variable faults : nat -> bool.

Lemma load_reminders_unfold (s : state) :
  load_reminders faults s =
  (if faults (calls s) then Raise OperationalError
   else if forallb parses (pending (db s)) then Ok tt else Raise ValueError,
   refreshed s).
Proof.
  unfold load_reminders, refreshed, pending.
  unfold emit, store_call, get, bind at 1 2 3. cbn.
  destruct (faults (calls s)); [reflexivity|].
  rewrite parse_loop. reflexivity.
Qed.

Lemma drain_cons (r : reminder) (q : list reminder) (s : state) :
  drain faults (r :: q) s =
  match load_reminders faults
          (mkState (db s) (conn s) q (calls s) (trace s ++ [EvShow r])) with
  | (Ok _, s1) => drain faults q s1
  | (Raise e, s1) => (Raise e, s1)
  end.
Proof. reflexivity. Qed.

Lemma drain_conserves (q : list reminder) (s : state) (res : result unit)
    (s' : state) :
  reminder_queue s = q ->
  drain faults q s = (res, s') ->
  exists es,
    trace s' = trace s ++ es /\
    q = shows es ++ reminder_queue s' /\
    (res = Ok tt -> reminder_queue s' = []) /\
    db s' = db s.
Proof.
  revert s. induction q as [|r q IH]; intros s Hq.
  - cbn [drain]. unfold ret. intros [= <- <-]. exists []. rewrite app_nil_r.
    split; [reflexivity|]. split; [symmetry; exact Hq|]. auto.
  - rewrite drain_cons, load_reminders_unfold. cbn [calls db].
    set (s1 := refreshed _).
    assert (T1 : trace s1 = trace s ++ [EvShow r; EvRefresh])
      by (cbn; rewrite <- app_assoc; reflexivity).
    assert (Q1 : reminder_queue s1 = q) by reflexivity.
    assert (D1 : db s1 = db s) by reflexivity.
    destruct (faults (calls s)).
    { intros [= <- <-]. exists [EvShow r; EvRefresh].
      split; [exact T1|]. rewrite Q1. cbn. split; [reflexivity|].
      split; [discriminate|exact D1]. }
    destruct (forallb parses (pending (db s))).
    + intros F. destruct (IH s1 Q1 F) as (es & T & Hs & Hok & D).
      exists ([EvShow r; EvRefresh] ++ es).
      split; [rewrite T, T1, <- app_assoc; reflexivity|].
      split; [rewrite shows_app; cbn; rewrite <- Hs; reflexivity|].
      split; [exact Hok|]. rewrite D. exact D1.
    + intros [= <- <-]. exists [EvShow r; EvRefresh].
      split; [exact T1|]. rewrite Q1. cbn. split; [reflexivity|].
      split; [discriminate|exact D1].
Qed.

(** Whatever happens in a tick, no queued reminder is lost or shown
    twice: the reminders shown, in the order shown, followed by the
    reminders still queued, are the queue the tick started with; a tick
    that returns normally leaves the queue empty; and the tick never
    changes the database file. *)
Theorem tick_never_loses_a_reminder (s : state) (res : result unit)
    (s' : state) :
  process_reminder_queue faults s = (res, s') ->
  reminder_queue s = shows (new_events s s') ++ reminder_queue s' /\
  (res = Ok tt -> reminder_queue s' = []) /\
  db s' = db s.
Proof.
  unfold process_reminder_queue, bind, get. intros D.
  destruct (drain_conserves _ _ _ _ eq_refl D) as (es & T & Hs & Hok & Hd).
  rewrite (new_events_app s s' es T). auto.
Qed.

Lemma drain_all (q : list reminder) (s : state) :
  (forall k, faults k = false) ->
  forallb parses (pending (db s)) = true ->
  reminder_queue s = q ->
  exists s',
    drain faults q s = (Ok tt, s') /\
    trace s' = trace s ++ flat_map (fun r => [EvShow r; EvRefresh]) q /\
    reminder_queue s' = [] /\ db s' = db s.
Proof.
  intros Hf. revert s. induction q as [|r q IH]; intros s Hp Hq.
  - exists s. cbn [drain]. unfold ret. cbn. rewrite app_nil_r. auto.
  - rewrite drain_cons, load_reminders_unfold. cbn [calls db].
    rewrite Hf, Hp.
    set (s1 := refreshed _).
    destruct (IH s1 Hp eq_refl) as (s' & D & T & Q & Db).
    exists s'. split; [exact D|]. split; [|split; [exact Q|exact Db]].
    rewrite T. cbn. rewrite <- !app_assoc. reflexivity.
Qed.

(** When the store answers and every pending row parses, a tick shows
    every queued reminder once, in the order queued, refreshes the list
    after each one, and leaves the queue empty. *)
Theorem tick_presents_queue_in_order (s : state) :
  (forall k, faults k = false) ->
  forallb parses (pending (db s)) = true ->
  exists s',
    process_reminder_queue faults s = (Ok tt, s') /\
    new_events s s'
    = flat_map (fun r => [EvShow r; EvRefresh]) (reminder_queue s) /\
    reminder_queue s' = [].
Proof.
  intros Hf Hp.
  destruct (drain_all (reminder_queue s) s Hf Hp eq_refl)
    as (s' & D & T & Q & _).
  exists s'. split; [|split; [apply new_events_app; exact T|exact Q]].
  unfold process_reminder_queue, bind, get. exact D.
Qed.

(** One pending row whose [remind_time] is ASCII text that does not
    parse makes the tick raise: the first queued reminder is shown and
    removed, the refresh after it raises [ValueError] out of the tick, and
    the other reminders stay queued. *)
Theorem tick_raises_on_unparseable_row (s : state) (r : reminder)
    (q : list reminder) (row : reminder) :
  reminder_queue s = r :: q ->
  faults (calls s) = false ->
  In row (db s) -> is_completed row = 0 ->
  ascii_only (remind_time row) = true -> parses row = false ->
  exists s',
    process_reminder_queue faults s = (Raise ValueError, s') /\
    new_events s s' = [EvShow r; EvRefresh] /\
    reminder_queue s' = q.
Proof.
  intros Hq Hf Hin Hc _ Hrow.
  assert (Hp : forallb parses (pending (db s)) = false).
  { destruct (forallb parses (pending (db s))) eqn:A; [|reflexivity].
    rewrite forallb_forall in A. rewrite <- Hrow. symmetry. apply A.
    unfold pending. apply filter_In. split; [exact Hin|].
    apply Z.eqb_eq. exact Hc. }
  unfold process_reminder_queue, bind at 1, get. rewrite Hq.
  rewrite drain_cons, load_reminders_unfold. cbn [calls db]. rewrite Hf, Hp.
  eexists. split; [reflexivity|]. split; [|reflexivity].
  apply new_events_app. cbn. rewrite <- app_assoc. reflexivity.
Qed.

End Engine.

Lemma tick_never_loses_a_reminder_witness :
  [Scenario.one_shot; Scenario.daily]
  = shows (new_events
             (mkState [Scenario.daily] [] [Scenario.one_shot; Scenario.daily]
                0 [])
             (snd (process_reminder_queue (Scenario.fail_at 1)
                     (mkState [Scenario.daily] []
                        [Scenario.one_shot; Scenario.daily] 0 []))))
    ++ reminder_queue
         (snd (process_reminder_queue (Scenario.fail_at 1)
                 (mkState [Scenario.daily] []
                    [Scenario.one_shot; Scenario.daily] 0 []))).
Proof.
  pose proof (tick_never_loses_a_reminder (Scenario.fail_at 1)
                (mkState [Scenario.daily] []
                   [Scenario.one_shot; Scenario.daily] 0 [])
                (Raise OperationalError)
                (snd (process_reminder_queue (Scenario.fail_at 1)
                        (mkState [Scenario.daily] []
                           [Scenario.one_shot; Scenario.daily] 0 [])))
                ltac:(vm_compute; reflexivity)) as W.
  exact (proj1 W).
Defined.

Lemma tick_presents_queue_in_order_witness :
  exists s',
    process_reminder_queue no_faults
      (mkState [Scenario.daily] [] [Scenario.one_shot; Scenario.daily] 0 [])
    = (Ok tt, s') /\
    new_events
      (mkState [Scenario.daily] [] [Scenario.one_shot; Scenario.daily] 0 [])
      s'
    = [EvShow Scenario.one_shot; EvRefresh; EvShow Scenario.daily; EvRefresh]
    /\ reminder_queue s' = [].
Proof.
  apply (tick_presents_queue_in_order no_faults
           (mkState [Scenario.daily] []
              [Scenario.one_shot; Scenario.daily] 0 [])).
  - intros k. reflexivity.
  - vm_compute. reflexivity.
Defined.

Lemma tick_raises_on_unparseable_row_witness :
  exists s',
    process_reminder_queue no_faults
      (mkState [set_remind_time "tomorrow" Scenario.daily] []
         [Scenario.one_shot; Scenario.daily] 0 [])
    = (Raise ValueError, s') /\
    new_events
      (mkState [set_remind_time "tomorrow" Scenario.daily] []
         [Scenario.one_shot; Scenario.daily] 0 []) s'
    = [EvShow Scenario.one_shot; EvRefresh] /\
    reminder_queue s' = [Scenario.daily].
Proof.
  apply (tick_raises_on_unparseable_row no_faults
           (mkState [set_remind_time "tomorrow" Scenario.daily] []
              [Scenario.one_shot; Scenario.daily] 0 [])
           Scenario.one_shot [Scenario.daily]
           (set_remind_time "tomorrow" Scenario.daily)).
  - reflexivity.
  - reflexivity.
  - left. reflexivity.
  - reflexivity.
  - vm_compute. reflexivity.
  - vm_compute. reflexivity.
Defined.

End ConsumerProperties.

(** ** The reminder dialog *)

Module DialogProperties.
Import PyDatetime TimeFormat CalendarFacts TextFacts RecurrenceProperties
  Dialog.

Lemma py_str_four_digits (y : Z) :
  1000 <= y <= 9999 -> py_str y = pad4 y EmptyString.
Proof.
  intros H.
  assert (A : forallb (fun y => (y <? 1000)
                        || String.eqb (py_str y) (pad4 y EmptyString))
                (zrange (Z.to_nat 10000)) = true) by (vm_compute; reflexivity).
  pose proof (zrange_forallb _ _ A y ltac:(lia)) as B. cbv beta in B.
  destruct (Z.ltb_spec y 1000); [lia|]. cbn [orb] in B.
  apply String.eqb_eq. exact B.
Qed.

Lemma fmt_02d_two_digits (n : Z) :
  0 <= n <= 99 -> fmt_02d n = pad2 n EmptyString.
Proof.
  intros H.
  assert (A : forallb (fun n => String.eqb (fmt_02d n) (pad2 n EmptyString))
                (zrange 100) = true) by (vm_compute; reflexivity).
  pose proof (zrange_forallb _ _ A n ltac:(lia)) as B.
  apply String.eqb_eq. exact B.
Qed.

(** The time that [get_data] writes for a valid date picked in the dialog
    parses to that date with the hour and minute of the two spin controls
    and second 0 (years from 1000 on, which print with four digits); with
    no valid date it is the printed current time. *)
Theorem dialog_time_parses (f : form) (now : datetime) (y m d : Z) :
  f_date f = Some (y, m, d) ->
  1000 <= y -> date_ok y (m + 1) d = true ->
  0 <= f_time f <= 23 -> 0 <= f_minutes f <= 59 ->
  let '(_, remind_time, _, _, _) := get_data f now in
  strptime remind_time = Ok (mkdt y (m + 1) d (f_time f) (f_minutes f) 0).
Proof.
  intros Hd Hy Vd Hh Hmi. unfold get_data. rewrite Hd.
  assert (V : valid (mkdt y (m + 1) d (f_time f) (f_minutes f) 0)).
  { split; [exact Vd|]. apply time_ok_intro; cbn; lia. }
  pose proof (valid_ranges _ V) as (Ry & Rm & Rd & _).
  cbn [year month day] in Ry, Rm, Rd.
  rewrite py_str_four_digits by lia.
  rewrite !fmt_02d_two_digits by lia.
  rewrite <- (strptime_strftime_valid _ V). reflexivity.
Qed.

Lemma dialog_time_parses_witness :
  strptime "2024-01-05 09:07:00" = Ok (mkdt 2024 1 5 9 7 0).
Proof.
  exact (dialog_time_parses
           (mkForm "m" (Some (2024, 0, 5)) 9 7 false 1 "") Scenario.now
           2024 0 5 eq_refl ltac:(lia) eq_refl ltac:(cbn; lia)
           ltac:(cbn; lia)).
Defined.

Lemma unit_of_label_supported (label : string) :
  In (unit_of_label label) supported_units.
Proof.
  unfold unit_of_label, supported_units.
  repeat match goal with
         | |- context [String.eqb ?a ?b] => destruct (String.eqb a b)
         end; cbn; auto 10.
Qed.

(** The two dictionaries of the dialog: reading back the label that
    [set_data] shows for a stored unit gives that unit when it is one of
    the five supported ones, and gives "days" for any other stored unit,
    NULL included. *)
Theorem unit_maps_round_trip (unit : option string) :
  unit_of_label (label_of_unit unit) =
  match unit with
  | Some u => if existsb (String.eqb u) supported_units then u else "days"%string
  | None => "days"%string
  end.
Proof.
  destruct unit as [u|]; [|reflexivity].
  unfold label_of_unit, unit_is, supported_units. cbn [existsb].
  destruct (String.eqb_spec u "minutes") as [->|]; [reflexivity|].
  destruct (String.eqb_spec u "hours") as [->|]; [reflexivity|].
  destruct (String.eqb_spec u "days") as [->|]; [reflexivity|].
  destruct (String.eqb_spec u "weeks") as [->|]; [reflexivity|].
  destruct (String.eqb_spec u "months") as [->|]; reflexivity.
Qed.

(** A recurring reminder entered through the dialog, with the interval of
    at least 1 that the spin control allows, is never passed over by
    [update_recurring_reminder] and never fails on a missing value: from a
    valid base time the computation yields a valid, strictly later time or
    raises [ValueError] or [OverflowError]. *)
Theorem dialog_row_is_never_skipped (f : form) (now dt : datetime)
    (new_id : Z) (created : string) :
  f_recurring f = true -> 1 <= f_interval f -> valid dt ->
  let row := inserted_row new_id created (get_data f now) in
  is_recurring row <> 0 /\ is_completed row = 0 /\
  match next_time dt (recurring_interval row) (recurring_unit row) with
  | Ok (Some t) => valid t /\ ltb dt t = true
  | Ok None => False
  | Raise e => e = ValueError \/ e = OverflowError
  end.
Proof.
  intros Hr Hi V. unfold get_data, inserted_row. rewrite Hr.
  cbn [is_recurring is_completed recurring_interval recurring_unit].
  split; [discriminate|]. split; [reflexivity|].
  apply next_time_outcomes; try assumption.
  apply unit_of_label_supported.
Qed.

Lemma dialog_row_is_never_skipped_witness :
  recurring_unit
    (inserted_row 7 "2024-01-30 08:00:00"
       (get_data (mkForm "m" (Some (2024, 0, 5)) 9 7 true 2 "недели")
          Scenario.now))
  = Some "weeks"%string.
Proof.
  pose proof (dialog_row_is_never_skipped
                (mkForm "m" (Some (2024, 0, 5)) 9 7 true 2 "недели")
                Scenario.now Scenario.now 7 "2024-01-30 08:00:00"
                eq_refl ltac:(cbn; lia) (conj eq_refl eq_refl)) as W.
  destruct W as (_ & _ & _). reflexivity.
Defined.

End DialogProperties.
